(** * Quads to NURBS: the patch builder of [nodes/surface/quads_to_nurbs.py]

    A shallow embedding of [SvExQuadsToNurbsNode.make_surface] and of the
    per-object body of [SvExQuadsToNurbsNode.process], with the properties
    the specification states about them.

    Conventions of the embedding.
    - Python floats are modelled by exact rationals in canonical form
      ([Qc]), so that two equal numbers are equal terms.  Rounding is not
      modelled.
    - A [mathutils.Vector] is a record of three scalars.
    - A Python list indexed by [l[i]] is a [list] read with stdpp's
      [l !! i]; an index out of range raises [IndexError].  Vertex indices
      are mesh indices and are natural numbers.
    - The edge-weight [dict] keyed by pairs of vertex indices is a
      [gmap (nat * nat) Qc]; a missing key raises [KeyError].
    - Exceptions are the [Raise] results of a small error monad. *)

From Stdlib Require Import ZArith QArith Qcanon Lia String.
From stdpp Require Import base option list gmap.

Local Open Scope Qc_scope.

(** ** Scalars and vectors *)

Module Vector.

Record Vector : Type := mk { x : Qc; y : Qc; z : Qc }.

(** [a + b] *)
Definition add (a b : Vector) : Vector :=
  mk (x a + x b) (y a + y b) (z a + z b).

(** [a - b] *)
Definition sub (a b : Vector) : Vector :=
  mk (x a - x b) (y a - y b) (z a - z b).

(** [v * k], a vector times a scalar *)
Definition mul (v : Vector) (k : Qc) : Vector :=
  mk (x v * k) (y v * k) (z v * k).

(** [k * v], a scalar times a vector *)
Definition rmul (k : Qc) (v : Vector) : Vector :=
  mk (k * x v) (k * y v) (k * z v).

Definition dot (a b : Vector) : Qc :=
  x a * x b + y a * y b + z a * z b.

End Vector.

Abbreviation Vector := Vector.Vector.

Declare Scope vec_scope.
Delimit Scope vec_scope with V.
Bind Scope vec_scope with Vector.Vector.
Infix "+" := Vector.add : vec_scope.
Infix "-" := Vector.sub : vec_scope.

(** ** Exceptions *)

Inductive exn : Type :=
| IndexError
| KeyError (key : nat * nat).

Inductive result (A : Type) : Type :=
| Ok (a : A)
| Raise (e : exn).
Arguments Ok {A} a.
Arguments Raise {A} e.

(** Sequencing: the first exception raised is the one that propagates.
    The instances give [result] stdpp's notation [x ← r; k]. *)
#[global] Instance result_bind : MBind result := fun A B k r =>
  match r with
  | Ok a => k a
  | Raise e => Raise e
  end.

#[global] Instance result_ret : MRet result := fun A a => Ok a.

(** [l[i]] *)
Definition item {A : Type} (l : list A) (i : nat) : result A :=
  match l !! i with
  | Some a => Ok a
  | None => Raise IndexError
  end.

(** [d[k]] *)
Definition getitem (d : gmap (nat * nat) Qc) (k : nat * nat) : result Qc :=
  match d !! k with
  | Some w => Ok w
  | None => Raise (KeyError k)
  end.

(** [[f(i) for i in idx]] *)
Fixpoint comprehension {A B : Type} (f : A -> result B) (idx : list A)
  : result (list B) :=
  match idx with
  | [] => Ok []
  | i :: rest =>
      b ← f i;
      bs ← comprehension f rest;
      Ok (b :: bs)
  end.

(** ** The plane collaborator *)

Module PlaneEquation.

(** Modelled from the spec: [sverchok.utils.geom.PlaneEquation] is not
    part of this repository.  The specification describes it as the
    plane/projection collaborator: a tangent plane is constructed from
    (normal, point), and [projection_of_point] is the orthogonal
    projection along the plane's normal, returning the closest point of
    the plane.  A plane is kept as the coefficients of
    [a x + b y + c z + d = 0]. *)
Record t : Type := mk { a : Qc; b : Qc; c : Qc; d : Qc }.

Definition normal (p : t) : Vector := Vector.mk (a p) (b p) (c p).

(** Modelled from the spec: the plane with the given normal through the
    given point. *)
Definition from_normal_and_point (n point : Vector) : t :=
  mk (Vector.x n) (Vector.y n) (Vector.z n) (- Vector.dot n point).

(** The value of the plane's equation at a point. *)
Definition value (p : t) (point : Vector) : Qc :=
  Vector.dot (normal p) point + d p.

Definition contains (p : t) (point : Vector) : Prop :=
  value p point = 0.

(** Modelled from the spec: the orthogonal projection of a point along
    the plane's normal, which is the closest point of the plane. *)
Definition projection_of_point (p : t) (point : Vector) : Vector :=
  (point - Vector.rmul (value p point / Vector.dot (normal p) (normal p))
                       (normal p))%V.

End PlaneEquation.

Abbreviation PlaneEquation := PlaneEquation.t.

(** ** The NURBS surface collaborator *)

Module knotvector.

(** Modelled from the spec: [geomdl.knotvector.generate] is not part of
    this repository.  The specification gives the standard open-uniform
    clamped rule: degree+1 repeated knots at each end, uniform interior
    knots, normalised to [0,1]; the length is control points + degree + 1. *)
Definition generate (degree : Z) (num_ctrlpts : nat) : list Qc :=
  let d := Z.to_nat degree in
  let segments := (num_ctrlpts - d)%nat in
  repeat 0 (S d)
  ++ map (fun j => Q2Qc (Z.of_nat j # Pos.of_nat segments))
         (seq 1 (segments - 1))
  ++ repeat 1 (S d).

End knotvector.

Module NURBS.

(** The fields [make_surface] sets on a [NURBS.Surface]; the wrapper
    [SvExGeomdlSurface] only holds the surface. *)
Record Surface : Type := mk {
  degree_u : Z;
  degree_v : Z;
  ctrlpts_size_u : nat;
  ctrlpts_size_v : nat;
  ctrlpts : list Vector;
  weights : list Qc;
  knotvector_u : list Qc;
  knotvector_v : list Qc
}.

End NURBS.

(** ** [make_surface] *)

Section make_surface.

Variable face : list nat.
Variables degree_u degree_v : Z.
Variable vertices : list Vector.
Variable planes : list PlaneEquation.
Variable vert_weights : list Qc.
Variable tangent_weights : list Qc.
Variable face_weight : Qc.
Variable edge_weights_dict : gmap (nat * nat) Qc.

(** [tangent_weights = [w/3.0 for w in tangent_weights]] *)
Definition scaled_tangent_weights : list Qc :=
  map (fun w => w / Q2Qc 3) tangent_weights.

(** [(vertices[j] - vertices[i]) * tangent_weights[i] + vertices[i]] *)
Definition mk_edge_point (i j : nat) : result Vector :=
  vj ← item vertices j;
  vi ← item vertices i;
  tw ← item scaled_tangent_weights i;
  Ok (Vector.mul (vj - vi) tw + vi)%V.

(** [planes[i].projection_of_point(mk_edge_point(i, j))] *)
Definition projected_edge_point (i j : nat) : result Vector :=
  plane ← item planes i;
  raw ← mk_edge_point i j;
  Ok (PlaneEquation.projection_of_point plane raw).

Definition mk_face_point (i j k : nat) : result Vector :=
  vj ← item vertices j;
  vi ← item vertices i;
  tw ← item scaled_tangent_weights i;
  let dv1 := Vector.mul (vj - vi)%V tw in
  vk ← item vertices k;
  let dv2 := Vector.mul (vk - vi)%V tw in
  let m := face_weight in
  plane ← item planes i;
  Ok (PlaneEquation.projection_of_point plane
        (vi + Vector.rmul m dv1 + Vector.rmul m dv2)%V).

Definition make_surface : result (NURBS.Surface * list Vector * list Qc) :=
  e01 ← projected_edge_point 0 1;
  e02 ← projected_edge_point 1 0;
  e11 ← projected_edge_point 0 3;
  e21 ← projected_edge_point 1 2;
  f1 ← mk_face_point 0 1 3;
  f2 ← mk_face_point 1 0 2;
  e12 ← projected_edge_point 3 0;
  e31 ← projected_edge_point 3 2;
  e32 ← projected_edge_point 2 3;
  e22 ← projected_edge_point 2 1;
  f3 ← mk_face_point 3 0 2;
  f4 ← mk_face_point 2 3 1;
  v0 ← item vertices 0;
  v1 ← item vertices 1;
  v3 ← item vertices 3;
  v2 ← item vertices 2;
  let control_points :=
    [ v0;  e01; e02; v1;
      e11; f1;  f2;  e21;
      e12; f3;  f4;  e22;
      v3;  e31; e32; v2 ] in
  (* edge point weights *)
  face0 ← item face 0;
  face1 ← item face 1;
  e0w ← getitem edge_weights_dict (face0, face1);
  face3 ← item face 3;
  e1w ← getitem edge_weights_dict (face0, face3);
  face2 ← item face 2;
  e2w ← getitem edge_weights_dict (face1, face2);
  e3w ← getitem edge_weights_dict (face2, face3);
  vw0 ← item vert_weights 0;
  vw1 ← item vert_weights 1;
  vw3 ← item vert_weights 3;
  vw2 ← item vert_weights 2;
  let weights :=
    [ vw0; e0w;         e0w;         vw1;
      e1w; face_weight; face_weight; e2w;
      e1w; face_weight; face_weight; e2w;
      vw3; e3w;         e3w;         vw2 ] in
  let surface :=
    {| NURBS.degree_u := degree_u;
       NURBS.degree_v := degree_v;
       NURBS.ctrlpts_size_u := 4;
       NURBS.ctrlpts_size_v := 4;
       NURBS.ctrlpts := control_points;
       NURBS.weights := weights;
       NURBS.knotvector_u := knotvector.generate degree_u 4;
       NURBS.knotvector_v := knotvector.generate degree_v 4 |} in
  Ok (surface, control_points, weights).

End make_surface.

(** ** The batch driver: [process] *)

(** Modelled from the spec: [sverchok.data_structure.fullList] is not part
    of this repository.  The specification has short input arrays padded
    by repeating the last supplied value, so that the list is at least
    [count] long; a list that is long enough is left as it is.  With no
    supplied value there is no last element to repeat, which is Python's
    [IndexError]. *)
Definition fullList {A : Type} (l : list A) (count : nat) : result (list A) :=
  if decide (count ≤ length l)%nat then Ok l
  else match last l with
       | Some a => Ok (l ++ repeat a (count - length l)%nat)
       | None => Raise IndexError
       end.

(** The loop at lines 196-198:
    [edge_weights_dict[(i, j)] = edge_weight] and then
    [edge_weights_dict[(j, i)] = edge_weight], for each pair of
    [zip(edges, edge_weights)] in order, starting from the table given. *)
Fixpoint fill_edge_weights (zipped : list ((nat * nat) * Qc))
    (edge_weights_dict : gmap (nat * nat) Qc) : gmap (nat * nat) Qc :=
  match zipped with
  | [] => edge_weights_dict
  | ((i, j), edge_weight) :: rest =>
      fill_edge_weights rest
        (<[(j, i) := edge_weight]> (<[(i, j) := edge_weight]> edge_weights_dict))
  end.

(** [edge_weights_dict = dict()] followed by the loop. *)
Definition build_edge_weights_dict (edges : list (nat * nat))
    (edge_weights : list Qc) : gmap (nat * nat) Qc :=
  fill_edge_weights (zip edges edge_weights) ∅.

(** [self.info("Face #%s is not a Quad, skip it", i)] *)
Inductive log_entry : Type :=
| Info (format : string) (arg : nat).

Definition not_a_quad (i : nat) : log_entry :=
  Info "Face #%s is not a Quad, skip it" i.

(** The three output lists [surface_out], [control_points_out] and
    [weights_out], which grow together. *)
Record outputs : Type := mkOutputs {
  surface_out : list NURBS.Surface;
  control_points_out : list (list Vector);
  weights_out : list (list Qc)
}.

Definition no_outputs : outputs := mkOutputs [] [] [].

Definition append_patch (out : outputs)
    (patch : NURBS.Surface * list Vector * list Qc) : outputs :=
  let '(surface, ctrlpts, weights) := patch in
  mkOutputs (surface_out out ++ [surface])
            (control_points_out out ++ [ctrlpts])
            (weights_out out ++ [weights]).

(** [zip(faces, degree_u, degree_v, face_weights)]: as long as the
    shortest of the four. *)
Fixpoint zip4 {A B C D : Type} (la : list A) (lb : list B) (lc : list C)
    (ld : list D) : list (A * B * C * D) :=
  match la, lb, lc, ld with
  | a :: la', b :: lb', c :: lc', d :: ld' =>
      (a, b, c, d) :: zip4 la' lb' lc' ld'
  | _, _, _, _ => []
  end.

Section faces_loop.

Variable vertices : list Vector.
Variable vert_planes : list PlaneEquation.
Variable vertex_weights : list Qc.
Variable tangent_weights : list Qc.
Variable edge_weights_dict : gmap (nat * nat) Qc.

(** Lines 206-216: the patch of one quad face. *)
Definition face_patch (face : list nat) (degree_u degree_v : Z)
    (face_weight : Qc) : result (NURBS.Surface * list Vector * list Qc) :=
  face_verts ← comprehension (item vertices) face;
  face_planes ← comprehension (item vert_planes) face;
  face_vert_weights ← comprehension (item vertex_weights) face;
  face_tangent_weights ← comprehension (item tangent_weights) face;
  make_surface face degree_u degree_v face_verts face_planes
    face_vert_weights face_tangent_weights face_weight edge_weights_dict.

(** The loop at lines 202-219 over
    [enumerate(zip(faces, degree_u, degree_v, face_weights))], from index
    [i] on.  The messages logged so far are returned also when an
    exception ends the loop. *)
Fixpoint faces_loop (i : nat) (zipped : list (list nat * Z * Z * Qc))
    (out : outputs) : list log_entry * result outputs :=
  match zipped with
  | [] => ([], Ok out)
  | (face, degree_u, degree_v, face_weight) :: rest =>
      if decide (length face ≠ 4%nat) then
        let '(log, r) := faces_loop (S i) rest out in
        (not_a_quad i :: log, r)
      else
        match face_patch face degree_u degree_v face_weight with
        | Ok patch => faces_loop (S i) rest (append_patch out patch)
        | Raise e => ([], Raise e)
        end
  end.

End faces_loop.

(** One mesh object as [zip_long_repeat] hands it to the loop body. *)
Record mesh_input : Type := mkInput {
  in_vertices : list Vector;
  in_edges : list (nat * nat);
  in_faces : list (list nat);
  in_degree_u : list Z;
  in_degree_v : list Z;
  in_vertex_weights : list Qc;
  in_edge_weights : list Qc;
  in_face_weights : list Qc;
  in_tangent_weights : list Qc
}.

Section process.

(** The mesh collaborators, which are not part of this repository:
    [polygons_to_edges([faces], True)[0]] derives the edges of a face
    list, and [bmesh_from_pydata(..., normal_update=True)] gives the
    accumulated normal of every vertex. *)
Variable polygons_to_edges : list (list nat) -> list (nat * nat).
Variable vertex_normals :
  list Vector -> list (nat * nat) -> list (list nat) -> list Vector.

(** Lines 168-192: the edges, the padded parameter lists, the tangent
    planes; lines 194-198: the edge-weight table. *)
Definition resolve_edges (edges : list (nat * nat)) (faces : list (list nat))
  : list (nat * nat) :=
  match edges with
  | [] => polygons_to_edges faces
  | _ => edges
  end.

Definition vert_planes_of (vertices : list Vector) (edges : list (nat * nat))
    (faces : list (list nat)) : list PlaneEquation :=
  map (fun '(normal, point) => PlaneEquation.from_normal_and_point normal point)
      (zip (vertex_normals vertices edges faces) vertices).

(** The body of the loop over mesh objects, lines 168-219. *)
Definition process_object (m : mesh_input) (out : outputs)
  : list log_entry * result outputs :=
  let vertices := in_vertices m in
  let faces := in_faces m in
  let prepared :=
    degree_u ← fullList (in_degree_u m) (length faces);
    degree_v ← fullList (in_degree_v m) (length faces);
    let edges := resolve_edges (in_edges m) faces in
    vertex_weights ← fullList (in_vertex_weights m) (length vertices);
    tangent_weights ← fullList (in_tangent_weights m) (length vertices);
    edge_weights ← fullList (in_edge_weights m) (length edges);
    face_weights ← fullList (in_face_weights m) (length faces);
    Ok (degree_u, degree_v, edges, vertex_weights, tangent_weights,
        edge_weights, face_weights) in
  match prepared with
  | Raise e => ([], Raise e)
  | Ok (degree_u, degree_v, edges, vertex_weights, tangent_weights,
        edge_weights, face_weights) =>
      let vert_planes := vert_planes_of vertices edges faces in
      let edge_weights_dict := build_edge_weights_dict edges edge_weights in
      faces_loop vertices vert_planes vertex_weights tangent_weights
        edge_weights_dict 0 (zip4 faces degree_u degree_v face_weights) out
  end.

(** The loop over the mesh objects, lines 163-219: the outputs of the
    objects are collected in order. *)
Fixpoint process_objects (inputs : list mesh_input) (out : outputs)
  : list log_entry * result outputs :=
  match inputs with
  | [] => ([], Ok out)
  | m :: rest =>
      match process_object m out with
      | (log, Ok out') =>
          let '(log', r) := process_objects rest out' in (log ++ log', r)
      | (log, Raise e) => (log, Raise e)
      end
  end.

(** [process]: nothing is computed, and no output is set, unless some
    output socket is linked. *)
Definition process (any_output_linked : bool) (inputs : list mesh_input)
  : option (list log_entry * result outputs) :=
  if any_output_linked then Some (process_objects inputs no_outputs)
  else None.

End process.

(** * The specification's reading of the patch

    These definitions follow the words of the specification (sections 3
    and 4.1), not the code; the theorems below compare them with what
    [make_surface] returns. *)

Module Spec.

(** "VertexFrame - per quad-corner-vertex: 3D position, a tangent plane,
    a scalar vertex weight and a scalar tangent weight". *)
Record VertexFrame : Type := mkFrame {
  position : Vector;
  plane : PlaneEquation;
  vertex_weight : Qc;
  tangent_weight : Qc
}.

(** "Scale each corner's tangent weight by 1/3." *)
Definition influence (ci : VertexFrame) : Qc := tangent_weight ci / Q2Qc 3.

(** "raw edge point = position[i] + tangentWeight[i] * (position[j] -
    position[i])", with the scaled tangent weight. *)
Definition raw_edge_point (ci cj : VertexFrame) : Vector :=
  (position ci + Vector.rmul (influence ci) (position cj - position ci))%V.

(** "Project every raw edge point onto the tangent plane of its
    originating corner." *)
Definition edge_point (ci cj : VertexFrame) : Vector :=
  PlaneEquation.projection_of_point (plane ci) (raw_edge_point ci cj).

(** "take the two tangent-scaled displacement vectors from that corner
    toward its two quad-neighbors, combine them additively scaled by
    face_weight, add to the corner position, and project onto that
    corner's tangent plane". *)
Definition face_point (face_weight : Qc) (ci cj ck : VertexFrame) : Vector :=
  PlaneEquation.projection_of_point (plane ci)
    (position ci
     + Vector.rmul (face_weight * influence ci) (position cj - position ci)
     + Vector.rmul (face_weight * influence ci) (position ck - position ci))%V.


(** "row 0 = [corner0, e01, e02, corner1]; row 1 = [e11, f1, f2, e21];
    row 2 = [e12, f3, f4, e22]; row 3 = [corner3, e31, e32, corner2]",
    where e01 and e11 leave corner 0, e02 and e21 corner 1, e12 and e31
    corner 3, e32 and e22 corner 2, and f1, f2, f3, f4 are the face points
    of corners 0, 1, 3, 2. *)
Definition control_grid (face_weight : Qc) (c0 c1 c2 c3 : VertexFrame)
  : list Vector :=
  [ position c0; edge_point c0 c1; edge_point c1 c0; position c1;
    edge_point c0 c3; face_point face_weight c0 c1 c3;
      face_point face_weight c1 c0 c2; edge_point c1 c2;
    edge_point c3 c0; face_point face_weight c3 c0 c2;
      face_point face_weight c2 c3 c1; edge_point c2 c1;
    position c3; edge_point c3 c2; edge_point c2 c3; position c2 ].

(** "corners get their own vertex weight; each boundary-edge slot pair
    both take that side's edge weight; all 4 interior slots take
    face_weight", for the sides 0-1, 0-3, 1-2 and 2-3. *)
Definition weight_grid (face_weight : Qc) (c0 c1 c2 c3 : VertexFrame)
    (w01 w03 w12 w23 : Qc) : list Qc :=
  [ vertex_weight c0; w01; w01; vertex_weight c1;
    w03; face_weight; face_weight; w12;
    w03; face_weight; face_weight; w12;
    vertex_weight c3; w23; w23; vertex_weight c2 ].

End Spec.

(** The frame of local corner [i], read from the four parallel lists that
    [make_surface] receives. *)
Definition frame_at (vertices : list Vector) (planes : list PlaneEquation)
    (vert_weights tangent_weights : list Qc) (i : nat)
  : option Spec.VertexFrame :=
  p ← vertices !! i;
  pl ← planes !! i;
  w ← vert_weights !! i;
  t ← tangent_weights !! i;
  Some (Spec.mkFrame p pl w t).

(** Where the control grid keeps the edge point that corner [i] sends
    toward corner [j] (lines 103-112 and 116-121): e01, e02, e11, e21,
    e12, e31, e32, e22. *)
Definition edge_slot (i j : nat) : option nat :=
  match i, j with
  | 0, 1 => Some 1
  | 1, 0 => Some 2
  | 0, 3 => Some 4
  | 1, 2 => Some 7
  | 3, 0 => Some 8
  | 3, 2 => Some 13
  | 2, 3 => Some 14
  | 2, 1 => Some 11
  | _, _ => None
  end%nat.

(** Where the control grid keeps the face point of corner [i], and the
    two corners [mk_face_point] is called with (lines 107-108, 113-114):
    f1, f2, f4, f3. *)
Definition face_slot (i : nat) : option (nat * (nat * nat)) :=
  match i with
  | 0 => Some (5, (1, 3))
  | 1 => Some (6, (0, 2))
  | 2 => Some (10, (3, 1))
  | 3 => Some (9, (0, 2))
  | _ => None
  end%nat.


(** The four sides [make_surface] looks up (lines 124-127), as pairs of
    local corners, and the two slots of the weight grid that take the
    weight of each (lines 130-133). *)
Definition sides : list ((nat * nat) * (nat * nat)) :=
  [ ((0, 1), (1, 2)); ((0, 3), (4, 8)); ((1, 2), (7, 11)); ((2, 3), (13, 14)) ]%nat.

(** The key a side is looked up with: the global vertex indices of its
    two corners, in the order of the pair. *)
Definition side_key (face : list nat) (side : nat * nat) : option (nat * nat) :=
  a ← face !! side.1;
  b ← face !! side.2;
  Some (a, b).

Definition is_Ok {A : Type} (r : result A) : Prop := exists a, r = Ok a.

(** ** Deciding equality of computed grids *)



(** ** The end-to-end scenario: the unit square *)

Module UnitSquare.

Definition quad : list nat := [0; 1; 2; 3]%nat.

Definition corners : list Vector :=
  [ Vector.mk 0 0 0; Vector.mk 1 0 0; Vector.mk 1 1 0; Vector.mk 0 1 0 ].

Definition up : Vector := Vector.mk 0 0 1.

Definition planes : list PlaneEquation :=
  map (PlaneEquation.from_normal_and_point up) corners.

Definition ones : list Qc := [1; 1; 1; 1].

Definition edges : list (nat * nat) := [ (0, 1); (1, 2); (2, 3); (3, 0) ]%nat.

Definition table : gmap (nat * nat) Qc := build_edge_weights_dict edges ones.

(** The patch of the scenario, for one tangent weight at all corners. *)
Definition patch (tangent_weight : Qc)
  : result (NURBS.Surface * list Vector * list Qc) :=
  make_surface quad 3 3 corners planes ones
    [tangent_weight; tangent_weight; tangent_weight; tangent_weight] 1 table.






Definition frame (i : nat) (tangent_weight : Qc) : Spec.VertexFrame :=
  let p := nth i corners (Vector.mk 0 0 0) in
  Spec.mkFrame p (PlaneEquation.from_normal_and_point up p) 1 tangent_weight.

End UnitSquare.

(** A table that gives both orders of a pair the same weight. *)
Definition symmetric (m : gmap (nat * nat) Qc) : Prop :=
  forall i j : nat, m !! (i, j) = m !! (j, i).

(** The diagnostics of a face list whose first face has index [i]: one
    for each face that is not a quad, in order. *)
Fixpoint skipped_log (i : nat) (faces : list (list nat)) : list log_entry :=
  match faces with
  | [] => []
  | face :: rest =>
      if decide (length face ≠ 4%nat)
      then not_a_quad i :: skipped_log (S i) rest
      else skipped_log (S i) rest
  end.

Definition face_of (entry : list nat * Z * Z * Qc) : list nat := entry.1.1.1.

Definition is_quad (face : list nat) : Prop := length face = 4%nat.

#[global] Instance is_quad_dec face : Decision (is_quad face).
Proof. unfold is_quad. apply _. Defined.

(** The keys [make_surface] looks up for the face (a, b, c, d). *)
Definition boundary_keys (a b c d : nat) : list (nat * nat) :=
  [ (a, b); (a, d); (b, c); (c, d) ].

(** ** A strip of two quads and a triangle *)

Module Strip.

Definition vertices : list Vector :=
  [ Vector.mk 0 0 0; Vector.mk 1 0 0; Vector.mk 1 1 0; Vector.mk 0 1 0;
    Vector.mk (Q2Qc 2) 0 0; Vector.mk (Q2Qc 2) 1 0; Vector.mk (Q2Qc 3) 0 0 ].

Definition left_quad : list nat := [0; 1; 2; 3]%nat.
Definition triangle : list nat := [4; 6; 5]%nat.
Definition right_quad : list nat := [2; 1; 4; 5]%nat.

Definition edges : list (nat * nat) :=
  [ (0, 1); (1, 2); (2, 3); (3, 0); (1, 4); (4, 5); (5, 2); (4, 6); (6, 5) ]%nat.

Definition mesh : mesh_input :=
  {| in_vertices := vertices;
     in_edges := edges;
     in_faces := [left_quad; triangle; right_quad];
     in_degree_u := [3%Z];
     in_degree_v := [3%Z];
     in_vertex_weights := [1];
     in_edge_weights := [1; Q2Qc 2; Q2Qc 3];
     in_face_weights := [1];
     in_tangent_weights := [1] |}.

(** Stand-ins for the mesh collaborators: no derived edges are needed,
    and every vertex normal of the flat strip is (0,0,1). *)
Definition no_edges (faces : list (list nat)) : list (nat * nat) := [].

Definition flat_normals (vs : list Vector) (es : list (nat * nat))
    (fs : list (list nat)) : list Vector :=
  map (fun _ => Vector.mk 0 0 1) vs.

Definition planes : list PlaneEquation :=
  vert_planes_of flat_normals vertices edges [left_quad; triangle; right_quad].

Definition table : gmap (nat * nat) Qc :=
  build_edge_weights_dict edges
    [1; Q2Qc 2; Q2Qc 3; Q2Qc 3; Q2Qc 3; Q2Qc 3; Q2Qc 3; Q2Qc 3; Q2Qc 3].

Definition sub {A : Type} (l : list A) (face : list nat) (d : A) : list A :=
  map (fun i => nth i l d) face.

(** [make_surface] as the loop calls it for a face of the strip. *)
Definition patch (face : list nat)
  : result (NURBS.Surface * list Vector * list Qc) :=
  make_surface face 3 3 (sub vertices face (Vector.mk 0 0 0))
    (sub planes face (PlaneEquation.mk 0 0 1 0))
    [1; 1; 1; 1] [1; 1; 1; 1] 1 table.

End Strip.

(** * Further definitions *)

(** The keys [make_surface] looks up for a face (lines 124-127), as far
    as the face has the corners. *)
Definition looked_up (face : list nat) : list (nat * nat) :=
  omap (fun s : (nat * nat) * (nat * nat) => side_key face s.1) sides.




(** The pair [e] of the edge list names the edge between [i] and [j]. *)
Definition names_edge (e : nat * nat) (i j : nat) : Prop :=
  e = (i, j) \/ e = (j, i).

#[global] Instance names_edge_dec e i j : Decision (names_edge e i j).
Proof. unfold names_edge. apply _. Defined.


(** The number of quad faces of a list of mesh objects. *)
Definition count_quads (inputs : list mesh_input) : nat :=
  sum_list_with (fun m => length (filter is_quad (in_faces m))) inputs.

(** The diagnostics of a list of mesh objects: the faces of every object
    are numbered from 0. *)
Definition batch_log (inputs : list mesh_input) : list log_entry :=
  concat (map (fun m => skipped_log 0 (in_faces m)) inputs).

Module Broken.

(** The strip with an edge list that lacks three sides of the left
    quad. *)
Definition mesh : mesh_input :=
  {| in_vertices := Strip.vertices;
     in_edges := [ (0, 1); (1, 4); (4, 5); (5, 2); (2, 1) ]%nat;
     in_faces := [Strip.triangle; Strip.right_quad; Strip.left_quad];
     in_degree_u := [3%Z];
     in_degree_v := [3%Z];
     in_vertex_weights := [1];
     in_edge_weights := [1];
     in_face_weights := [1];
     in_tangent_weights := [1] |}.

End Broken.

(** * [dependencies.py]

    The module body runs once, at import.  What it does depends on which
    [import] statements succeed; that is the parameter [importable].
    A module object is known by its name; [None] is Python's [None]. *)

Module dependencies.

Local Open Scope string_scope.

(** [class Dependency]; [__init__] leaves [module] and [message] at
    their defaults and sets [pip_installable = False]. *)
Record Dependency : Type := mkDependency {
  package : option string;
  url : string;
  module : option string;
  message : option string;
  pip_installable : bool
}.

Definition Dependency_init (package : option string) (url : string)
  : Dependency :=
  mkDependency package url None None false.

Inductive level : Type := INFO | DEBUG.

(** The state of the module while its body runs: the dict
    [dependencies] in insertion order, the module-level names that hold
    a module or [None], whether [info], [error] and [debug] are bound,
    what was printed and what was logged. *)
Record state : Type := mkState {
  deps : list (string * Dependency);
  names : list (string * option string);
  logging_bound : bool;
  stdout : list string;
  logged : list (level * string * list string)
}.

Definition initial : state := mkState [] [] false [] [].

(** The body either runs to its end or stops at a name that is not
    bound. *)
Inductive outcome : Type :=
| Loaded (st : state)
| NameError (name : string) (st : state).

Definition and_then (o : outcome) (k : state -> outcome) : outcome :=
  match o with
  | Loaded st => k st
  | NameError name st => NameError name st
  end.

(** [d[key] = value]: an existing key keeps its place. *)
Fixpoint dict_set {V : Type} (key : string) (value : V)
    (d : list (string * V)) : list (string * V) :=
  match d with
  | [] => [(key, value)]
  | (k, v) :: rest =>
      if String.eqb k key then (k, value) :: rest
      else (k, v) :: dict_set key value rest
  end.

Fixpoint dict_get {V : Type} (key : string) (d : list (string * V))
  : option V :=
  match d with
  | [] => None
  | (k, v) :: rest => if String.eqb k key then Some v else dict_get key rest
  end.

(** An attribute assignment through the alias [x_d] of the object stored
    under [key]. *)
Definition update (key : string) (f : Dependency -> Dependency) (st : state)
  : state :=
  mkState (map (fun '(k, d) => if String.eqb k key then (k, f d) else (k, d))
             (deps st))
    (names st) (logging_bound st) (stdout st) (logged st).

Definition set_message (key msg : string) : state -> state :=
  update key (fun d => mkDependency (package d) (url d) (module d) (Some msg)
                         (pip_installable d)).

Definition set_module (key name : string) : state -> state :=
  update key (fun d => mkDependency (package d) (url d) (Some name) (message d)
                         (pip_installable d)).

Definition set_pip_installable (key : string) : state -> state :=
  update key (fun d => mkDependency (package d) (url d) (module d) (message d)
                         true).

(** [x_d = dependencies[key] = Dependency(package, url)] *)
Definition new_dependency (key : string) (package : option string)
    (url : string) (st : state) : state :=
  mkState (dict_set key (Dependency_init package url) (deps st))
    (names st) (logging_bound st) (stdout st) (logged st).

(** [name = value] at module level. *)
Definition bind_name (name : string) (value : option string) (st : state)
  : state :=
  mkState (deps st) (dict_set name value (names st)) (logging_bound st)
    (stdout st) (logged st).

Definition bind_logging (st : state) : state :=
  mkState (deps st) (names st) true (stdout st) (logged st).

Definition print (text : string) (st : state) : state :=
  mkState (deps st) (names st) (logging_bound st) (stdout st ++ [text])%list
    (logged st).

(** A call of [info] or [debug]: the name has to be bound. *)
Definition log_call (lvl : level) (name format : string) (args : list string)
    (st : state) : outcome :=
  if logging_bound st
  then Loaded (mkState (deps st) (names st) (logging_bound st) (stdout st)
                 (logged st ++ [(lvl, format, args)])%list)
  else NameError name st.

Definition info := log_call INFO "info".
Definition debug := log_call DEBUG "debug".

Section body.

Variable importable : string -> bool.

(** Lines 12-21. *)
Definition load_sverchok (st : state) : state :=
  let st := new_dependency "sverchok" None
              "https://github.com/nortikin/sverchok" st in
  let except st :=
    let msg := "Sverchok addon is not available. Sverchok-Extra will not work."
    in
    bind_name "sverchok" None (print msg (set_message "sverchok" msg st)) in
  if importable "sverchok" then
    let st := bind_name "sverchok" (Some "sverchok") st in
    if importable "sverchok.utils.logging" then
      set_message "sverchok" "Sverchok addon is available"
        (set_module "sverchok" "sverchok" (bind_logging st))
    else except st
  else except st.

(** Lines 23-41. *)
Definition load_pip (st : state) : outcome :=
  let st := new_dependency "pip" (Some "pip") "https://pypi.org/project/pip/"
              st in
  and_then
    (if importable "pip" then
       Loaded (set_module "pip" "pip"
                 (set_message "pip" "PIP is available"
                    (bind_name "pip" (Some "pip") st)))
     else
       let msg := "PIP is not installed" in
       and_then (debug msg [] (set_message "pip" msg st))
         (fun st => Loaded (bind_name "pip" None st)))
    (fun st =>
       match dict_get "pip" (names st) with
       | Some None =>
           if importable "ensurepip"
           then Loaded (bind_name "ensurepip" (Some "ensurepip") st)
           else
             info "Ensurepip module is not available, user will not be able to install PIP automatically"
               [] (bind_name "ensurepip" None st)
       | Some (Some _) =>
           debug "PIP is already installed, no need to call ensurepip" []
             (bind_name "ensurepip" None st)
       | None => NameError "pip" st
       end).

(** The shape of lines 43-52, 54-62, 64-73, 75-83, 85-93 and 95-104:
    [installable] says whether the [except] branch sets
    [pip_installable = True]. *)
Definition load_optional (key package url available missing : string)
    (installable : bool) (st : state) : outcome :=
  let st := new_dependency key (Some package) url st in
  if importable key then
    Loaded (set_module key key
              (set_message key available (bind_name key (Some key) st)))
  else
    let st := set_message key missing st in
    let st := if installable then set_pip_installable key st else st in
    and_then (info missing [] st) (fun st => Loaded (bind_name key None st)).

(** Line 106. *)
Definition good_names (st : state) : list string :=
  omap (fun '(_, d) =>
          match module d, package d with
          | Some _, Some p => Some p
          | _, _ => None
          end) (deps st).

(** Lines 106-110. *)
Definition report (st : state) : outcome :=
  match good_names st with
  | [] => info "No dependencies are available." [] st
  | good => info "Dependencies available: %s." [String.concat ", " good] st
  end.

(** The module body. *)
Definition load : outcome :=
  let st := load_sverchok initial in
  and_then (load_pip st) (fun st =>
  and_then (load_optional "scipy" "scipy" "https://www.scipy.org/"
              "SciPy is available"
              "SciPy package is not available. Voronoi nodes and RBF-based nodes will not be available."
              true st) (fun st =>
  and_then (load_optional "geomdl" "geomdl"
              "https://github.com/orbingol/NURBS-Python/tree/master/geomdl"
              "geomdl package is available"
              "geomdl package is not available, NURBS / BSpline related nodes will not be available"
              false st) (fun st =>
  and_then (load_optional "skimage" "scikit-image" "https://scikit-image.org/"
              "SciKit-Image package is available"
              "SciKit-Image package is not available; SciKit-based implementation of Marching Cubes and Marching Squares will not be available"
              true st) (fun st =>
  and_then (load_optional "mcubes" "mcubes"
              "https://github.com/pmneila/PyMCubes"
              "PyMCubes package is available"
              "PyMCubes package is not available. PyMCubes-based implementation of Marching Cubes will not be available"
              false st) (fun st =>
  and_then (load_optional "pygalmesh" "pygalmesh"
              "https://github.com/nschloe/pygalmesh"
              "Pygalmesh package is available"
              "Pygalmesh package is not available. Corresponding nodes will not be available"
              false st) (fun st =>
  and_then (load_optional "circlify" "circlify"
              "https://github.com/elmotec/circlify"
              "Circlify package is available"
              "Circlify package is not available. Circlify node will not be available"
              true st)
    report)))))).

End body.

(** The optional packages in the order of the module body: the key in
    [dependencies], which is also the name imported, and the package
    name. *)
Definition optional_packages : list (string * string) :=
  [ ("pip", "pip"); ("scipy", "scipy"); ("geomdl", "geomdl");
    ("skimage", "scikit-image"); ("mcubes", "mcubes");
    ("pygalmesh", "pygalmesh"); ("circlify", "circlify") ].

(** The keys whose [except] branch sets [pip_installable]. *)
Definition installable_keys : list string :=
  [ "scipy"; "skimage"; "circlify" ].

(** The environment that answers for the ten names the body imports as
    the ten booleans say. *)
Definition of_bits (b_sverchok b_logging b_pip b_ensurepip b_scipy b_geomdl
    b_skimage b_mcubes b_pygalmesh b_circlify : bool) (name : string) : bool :=
  if String.eqb name "sverchok" then b_sverchok
  else if String.eqb name "sverchok.utils.logging" then b_logging
  else if String.eqb name "pip" then b_pip
  else if String.eqb name "ensurepip" then b_ensurepip
  else if String.eqb name "scipy" then b_scipy
  else if String.eqb name "geomdl" then b_geomdl
  else if String.eqb name "skimage" then b_skimage
  else if String.eqb name "mcubes" then b_mcubes
  else if String.eqb name "pygalmesh" then b_pygalmesh
  else if String.eqb name "circlify" then b_circlify
  else false.

(** What the module and the flag of an optional dependency have to be
    after the body, read off its [try] and [except] branches. *)
Definition expected_module (importable : string -> bool) (key : string)
  : option string :=
  if importable key then Some key else None.

Definition expected_installable (importable : string -> bool) (key : string)
  : bool :=
  negb (importable key)
  && existsb (String.eqb key) installable_keys.

(** The names [good_names] has to hold: the packages of the optional
    dependencies that were imported, in the order of the body. *)
Definition expected_good_names (importable : string -> bool) : list string :=
  omap (fun '(key, package) => if importable key then Some package else None)
    optional_packages.

Definition expected_report (importable : string -> bool)
  : level * string * list string :=
  match expected_good_names importable with
  | [] => (INFO, "No dependencies are available.", [])
  | good => (INFO, "Dependencies available: %s.", [String.concat ", " good])
  end.

Definition expected_ensurepip (importable : string -> bool) : option string :=
  if importable "pip" then None
  else if importable "ensurepip" then Some "ensurepip" else None.

(** The facts about a normal end of the body that the theorems below are
    read from. *)
Definition loaded_as_expected (importable : string -> bool) (st : state)
  : Prop :=
  importable "sverchok" = true /\
  importable "sverchok.utils.logging" = true /\
  map fst (deps st)
  = "sverchok" :: map fst optional_packages /\
  map (fun '(_, d) => package d) (deps st)
  = None :: map (fun '(_, p) => Some p) optional_packages /\
  map (fun '(_, d) => module d) (deps st)
  = Some "sverchok"
    :: map (fun '(key, _) => expected_module importable key) optional_packages
  /\
  map (fun '(_, d) => pip_installable d) (deps st)
  = false
    :: map (fun '(key, _) => expected_installable importable key)
         optional_packages /\
  forallb (fun '(_, d) => bool_decide (is_Some (message d))) (deps st) = true /\
  good_names st = expected_good_names importable /\
  last (logged st) = Some (expected_report importable) /\
  dict_get "ensurepip" (names st) = Some (expected_ensurepip importable) /\
  stdout st = [].

(** The facts about a body that stops at an unbound name. *)
Definition failed_as_expected (importable : string -> bool) (name : string)
    (st : state) : Prop :=
  name = "debug" /\
  importable "sverchok" && importable "sverchok.utils.logging" = false /\
  map fst (deps st) = ["sverchok"; "pip"] /\
  stdout st
  = ["Sverchok addon is not available. Sverchok-Extra will not work."] /\
  logged st = [].

Definition as_expected (importable : string -> bool) (o : outcome) : Prop :=
  match o with
  | Loaded st => loaded_as_expected importable st
  | NameError name st => failed_as_expected importable name st
  end.

(** An environment with everything the module imports, and one without
    the host addon. *)
Definition everything (name : string) : bool := true.
Definition no_sverchok (name : string) : bool :=
  negb (String.eqb name "sverchok").

End dependencies.

(** * Properties *)

(** ** The error monad *)

Lemma bind_Ok {A B : Type} (r : result A) (k : A -> result B) (b : B) :
  (r ≫= k) = Ok b <-> exists a, r = Ok a /\ k a = Ok b.
Proof.
  destruct r as [a|e]; simpl; split.
  - intros H. exists a. auto.
  - intros (a' & [= <-] & H). exact H.
  - discriminate.
  - intros (a' & [=] & _).
Qed.

Lemma item_Ok {A : Type} (l : list A) (i : nat) (a : A) :
  item l i = Ok a <-> l !! i = Some a.
Proof.
  unfold item. destruct (l !! i); split; congruence.
Qed.

Lemma getitem_Ok (d : gmap (nat * nat) Qc) (k : nat * nat) (w : Qc) :
  getitem d k = Ok w <-> d !! k = Some w.
Proof.
  unfold getitem. destruct (d !! k); split; congruence.
Qed.

Ltac invert_binds :=
  repeat match goal with
  | H : (_ ≫= _) = Ok _ |- _ =>
      apply bind_Ok in H; destruct H as (? & ? & H)
  | H : item _ _ = Ok _ |- _ => apply item_Ok in H
  | H : getitem _ _ = Ok _ |- _ => apply getitem_Ok in H
  | H : Ok _ = Ok _ |- _ => injection H as H; subst
  | H1 : ?l !! ?i = Some ?a, H2 : ?l !! ?i = Some ?b |- _ =>
      assert (a = b) by congruence; subst; clear H2
  end.

(** ** Vectors and planes *)

Lemma Vector_eq (u v : Vector) :
  Vector.x u = Vector.x v -> Vector.y u = Vector.y v ->
  Vector.z u = Vector.z v -> u = v.
Proof. destruct u, v; simpl; congruence. Qed.

Ltac vector_ring := apply Vector_eq; simpl; ring.

(** The code's edge expression and the specification's are the same
    point. *)
Lemma edge_expression (vi vj : Vector) (tw : Qc) :
  (Vector.mul (vj - vi) tw + vi)%V = (vi + Vector.rmul tw (vj - vi))%V.
Proof. vector_ring. Qed.

Lemma face_expression (vi vj vk : Vector) (tw m : Qc) :
  (vi + Vector.rmul m (Vector.mul (vj - vi) tw)
      + Vector.rmul m (Vector.mul (vk - vi) tw))%V
  = (vi + Vector.rmul (m * tw) (vj - vi) + Vector.rmul (m * tw) (vk - vi))%V.
Proof. vector_ring. Qed.

(** A point of the plane is its own projection. *)
Lemma projection_of_contained (pl : PlaneEquation) (p : Vector) :
  PlaneEquation.contains pl p -> PlaneEquation.projection_of_point pl p = p.
Proof.
  unfold PlaneEquation.contains, PlaneEquation.projection_of_point.
  intros ->. apply Vector_eq; simpl; unfold Qcdiv; ring.
Qed.

(** The plane built from a normal and a point passes through the point. *)
Lemma from_normal_and_point_contains (n p : Vector) :
  PlaneEquation.contains (PlaneEquation.from_normal_and_point n p) p.
Proof.
  unfold PlaneEquation.contains, PlaneEquation.value,
    PlaneEquation.from_normal_and_point, PlaneEquation.normal, Vector.dot.
  simpl. ring.
Qed.

(** ** What [make_surface] returns *)

Lemma frame_at_Some vs pls vws tws i p pl w t :
  vs !! i = Some p -> pls !! i = Some pl -> vws !! i = Some w ->
  tws !! i = Some t ->
  frame_at vs pls vws tws i = Some (Spec.mkFrame p pl w t).
Proof.
  intros H1 H2 H3 H4. unfold frame_at. rewrite H1, H2, H3, H4. reflexivity.
Qed.

Lemma frame_at_inv vs pls vws tws i c :
  frame_at vs pls vws tws i = Some c ->
  vs !! i = Some (Spec.position c) /\ pls !! i = Some (Spec.plane c) /\
  vws !! i = Some (Spec.vertex_weight c) /\
  tws !! i = Some (Spec.tangent_weight c).
Proof.
  unfold frame_at. intros H.
  destruct (vs !! i), (pls !! i), (vws !! i), (tws !! i);
    simpl in H; try discriminate.
  injection H as <-. auto.
Qed.

Lemma scaled_lookup tws i x :
  scaled_tangent_weights tws !! i = Some x ->
  exists t, tws !! i = Some t /\ x = t / Q2Qc 3.
Proof.
  unfold scaled_tangent_weights. rewrite list_lookup_fmap.
  destruct (tws !! i) as [t|]; simpl; [|discriminate].
  intros [= <-]. eauto.
Qed.

(** A successful call read four frames and four keys, and its three
    results are the specification's grids over them. *)
Lemma make_surface_inv face du dv vs pls vws tws fw tbl s cps ws :
  make_surface face du dv vs pls vws tws fw tbl = Ok (s, cps, ws) ->
  exists c0 c1 c2 c3 a b c d w01 w03 w12 w23,
    frame_at vs pls vws tws 0 = Some c0 /\
    frame_at vs pls vws tws 1 = Some c1 /\
    frame_at vs pls vws tws 2 = Some c2 /\
    frame_at vs pls vws tws 3 = Some c3 /\
    face !! 0%nat = Some a /\ face !! 1%nat = Some b /\
    face !! 2%nat = Some c /\ face !! 3%nat = Some d /\
    tbl !! (a, b) = Some w01 /\ tbl !! (a, d) = Some w03 /\
    tbl !! (b, c) = Some w12 /\ tbl !! (c, d) = Some w23 /\
    cps = Spec.control_grid fw c0 c1 c2 c3 /\
    ws = Spec.weight_grid fw c0 c1 c2 c3 w01 w03 w12 w23 /\
    s = NURBS.mk du dv 4 4 cps ws
          (knotvector.generate du 4) (knotvector.generate dv 4).
Proof.
  intros H.
  unfold make_surface, projected_edge_point, mk_face_point, mk_edge_point in H.
  invert_binds.
  repeat match goal with
  | H : scaled_tangent_weights _ !! _ = Some _ |- _ =>
      apply scaled_lookup in H; destruct H as (? & H & ->)
  end.
  do 12 eexists.
  repeat match goal with |- _ /\ _ => split end;
    try (apply frame_at_Some; eassumption); try eassumption;
    try reflexivity.
  unfold Spec.control_grid, Spec.edge_point, Spec.face_point,
    Spec.raw_edge_point, Spec.influence; simpl.
  rewrite !edge_expression, !face_expression. reflexivity.
Qed.

Lemma item_lookup {A : Type} (l : list A) (i : nat) (a : A) :
  l !! i = Some a -> item l i = Ok a.
Proof. apply item_Ok. Qed.

Lemma scaled_item tws i t :
  tws !! i = Some t -> item (scaled_tangent_weights tws) i = Ok (t / Q2Qc 3).
Proof.
  intros H. apply item_Ok. unfold scaled_tangent_weights.
  rewrite list_lookup_fmap, H. reflexivity.
Qed.

(** Conversely, four frames and four keys are all the call needs. *)
Lemma make_surface_complete face du dv vs pls vws tws fw tbl
    c0 c1 c2 c3 a b c d w01 w03 w12 w23 :
  frame_at vs pls vws tws 0 = Some c0 ->
  frame_at vs pls vws tws 1 = Some c1 ->
  frame_at vs pls vws tws 2 = Some c2 ->
  frame_at vs pls vws tws 3 = Some c3 ->
  face !! 0%nat = Some a -> face !! 1%nat = Some b ->
  face !! 2%nat = Some c -> face !! 3%nat = Some d ->
  tbl !! (a, b) = Some w01 -> tbl !! (a, d) = Some w03 ->
  tbl !! (b, c) = Some w12 -> tbl !! (c, d) = Some w23 ->
  make_surface face du dv vs pls vws tws fw tbl
  = Ok (NURBS.mk du dv 4 4 (Spec.control_grid fw c0 c1 c2 c3)
          (Spec.weight_grid fw c0 c1 c2 c3 w01 w03 w12 w23)
          (knotvector.generate du 4) (knotvector.generate dv 4),
        Spec.control_grid fw c0 c1 c2 c3,
        Spec.weight_grid fw c0 c1 c2 c3 w01 w03 w12 w23).
Proof.
  intros F0 F1 F2 F3 Ha Hb Hc Hd K1 K2 K3 K4.
  apply frame_at_inv in F0 as (P0 & L0 & W0 & T0).
  apply frame_at_inv in F1 as (P1 & L1 & W1 & T1).
  apply frame_at_inv in F2 as (P2 & L2 & W2 & T2).
  apply frame_at_inv in F3 as (P3 & L3 & W3 & T3).
  apply getitem_Ok in K1, K2, K3, K4.
  apply item_lookup in P0, P1, P2, P3, L0, L1, L2, L3, W0, W1, W2, W3,
    Ha, Hb, Hc, Hd.
  apply scaled_item in T0, T1, T2, T3.
  unfold make_surface, projected_edge_point, mk_face_point, mk_edge_point.
  rewrite P0, P1, P2, P3, L0, L1, L2, L3, W0, W1, W2, W3, T0, T1, T2, T3,
    Ha, Hb, Hc, Hd.
  cbn [mbind result_bind]. rewrite K1, K2, K3, K4. cbn [mbind result_bind].
  unfold Spec.control_grid, Spec.edge_point, Spec.face_point,
    Spec.raw_edge_point, Spec.influence.
  rewrite !edge_expression, !face_expression. reflexivity.
Qed.

(** ** Computed grids *)




(** ** The end-to-end scenario *)

Lemma unit_square_patch_eq (tw : Qc) :
  UnitSquare.patch tw
  = let cps := Spec.control_grid 1 (UnitSquare.frame 0 tw) (UnitSquare.frame 1 tw) (UnitSquare.frame 2 tw)
                 (UnitSquare.frame 3 tw) in
    let ws := Spec.weight_grid 1 (UnitSquare.frame 0 tw) (UnitSquare.frame 1 tw) (UnitSquare.frame 2 tw)
                (UnitSquare.frame 3 tw) 1 1 1 1 in
    Ok (NURBS.mk 3 3 4 4 cps ws (knotvector.generate 3 4)
          (knotvector.generate 3 4), cps, ws).
Proof.
  unfold UnitSquare.patch.
  apply (make_surface_complete _ _ _ _ _ _ _ _ _ _ _ _ _ 0 1 2 3)%nat;
    reflexivity.
Qed.



(** ** The edge-weight table *)

Lemma insert_both_symmetric (m : gmap (nat * nat) Qc) (i j : nat) (w : Qc) :
  symmetric m -> symmetric (<[(j, i) := w]> (<[(i, j) := w]> m)).
Proof.
  intros Hm a b. rewrite !lookup_insert.
  repeat case_decide; simplify_eq; auto.
Qed.

Lemma fill_edge_weights_symmetric (zipped : list ((nat * nat) * Qc))
    (m : gmap (nat * nat) Qc) :
  symmetric m -> symmetric (fill_edge_weights zipped m).
Proof.
  revert m. induction zipped as [|[[i j] w] rest IH]; intros m Hm; simpl.
  - exact Hm.
  - apply IH, insert_both_symmetric, Hm.
Qed.

Lemma build_edge_weights_dict_symmetric edges edge_weights :
  symmetric (build_edge_weights_dict edges edge_weights).
Proof.
  apply fill_edge_weights_symmetric. intros i j. rewrite !lookup_empty.
  reflexivity.
Qed.

(** Pairs that name another edge leave a key as it is. *)
Lemma fill_edge_weights_other (zipped : list ((nat * nat) * Qc))
    (m : gmap (nat * nat) Qc) (i j : nat) :
  (forall n e w, zipped !! n = Some (e, w) -> e <> (i, j) /\ e <> (j, i)) ->
  fill_edge_weights zipped m !! (i, j) = m !! (i, j).
Proof.
  revert m. induction zipped as [|[[a b] w] rest IH]; intros m H; simpl.
  - reflexivity.
  - rewrite IH.
    + destruct (H 0%nat (a, b) w eq_refl) as [H1 H2].
      rewrite !lookup_insert. repeat case_decide; simplify_eq; auto.
    + intros n e w' Hn. apply (H (S n) e w' Hn).
Qed.

(** The last pair that names an edge decides both of its keys. *)
Lemma fill_edge_weights_last (zipped : list ((nat * nat) * Qc))
    (m : gmap (nat * nat) Qc)
    (n a b i j : nat) (w : Qc) :
  zipped !! n = Some ((a, b), w) ->
  (a, b) = (i, j) \/ (a, b) = (j, i) ->
  (forall n' e w', (n < n')%nat -> zipped !! n' = Some (e, w') ->
                   e <> (i, j) /\ e <> (j, i)) ->
  fill_edge_weights zipped m !! (i, j) = Some w.
Proof.
  revert m n. induction zipped as [|[[a' b'] w'] rest IH]; intros m n Hn Hab Hlast.
  - discriminate.
  - destruct n as [|n]; simpl in *.
    + injection Hn as -> -> ->.
      rewrite fill_edge_weights_other.
      * rewrite !lookup_insert.
        destruct Hab as [[= -> ->]|[= -> ->]]; repeat case_decide;
          simplify_eq; auto.
      * intros n' e w' Hn'. apply (Hlast (S n') e w'); [lia | exact Hn'].
    + apply (IH _ n Hn Hab).
      intros n' e w'' Hlt Hn'. apply (Hlast (S n') e w''); [lia | exact Hn'].
Qed.

(** ** Slots of the grids *)

(** The weight of each looked-up side sits in both of its slots. *)
Lemma side_weights face du dv vs pls vws tws fw tbl s cps ws :
  make_surface face du dv vs pls vws tws fw tbl = Ok (s, cps, ws) ->
  forall side slots, (side, slots) ∈ sides ->
    exists k w, side_key face side = Some k /\ tbl !! k = Some w /\
                ws !! slots.1 = Some w /\ ws !! slots.2 = Some w.
Proof.
  intros H side slots Hin.
  apply make_surface_inv in H
    as (c0 & c1 & c2 & c3 & a & b & c & d & w01 & w03 & w12 & w23 &
        _ & _ & _ & _ & Ha & Hb & Hc & Hd & K1 & K2 & K3 & K4 & _ & -> & _).
  unfold sides in Hin. unfold side_key.
  repeat (apply elem_of_cons in Hin as [[= -> ->]|Hin];
          [simpl; rewrite ?Ha, ?Hb, ?Hc, ?Hd; simpl; eauto 10|]).
  apply elem_of_nil in Hin as [].
Qed.

Ltac in_list :=
  repeat first [apply list_elem_of_here | apply list_elem_of_further].













(** C7: in every table the batch pre-pass builds, a pair (i, j) that is
    present has the same weight as (j, i); hence two quads that list a
    common boundary edge, in the same or in opposite order of its two
    vertices, get the same weight in both boundary slots of that side. *)
Theorem shared_edge_weight edges edge_weights :
  (forall i j : nat,
     is_Some (build_edge_weights_dict edges edge_weights !! (i, j)) ->
     exists w,
       build_edge_weights_dict edges edge_weights !! (i, j) = Some w /\
       build_edge_weights_dict edges edge_weights !! (j, i) = Some w) /\
  (forall face du dv vs pls vws tws fw s cps ws
          face' du' dv' vs' pls' vws' tws' fw' s' cps' ws'
          side slots side' slots' (i j : nat),
     make_surface face du dv vs pls vws tws fw
       (build_edge_weights_dict edges edge_weights) = Ok (s, cps, ws) ->
     make_surface face' du' dv' vs' pls' vws' tws' fw'
       (build_edge_weights_dict edges edge_weights) = Ok (s', cps', ws') ->
     (side, slots) ∈ sides -> (side', slots') ∈ sides ->
     side_key face side = Some (i, j) ->
     side_key face' side' = Some (i, j) \/ side_key face' side' = Some (j, i) ->
     exists w,
       ws !! slots.1 = Some w /\ ws !! slots.2 = Some w /\
       ws' !! slots'.1 = Some w /\ ws' !! slots'.2 = Some w).
Proof.
  split.
  - intros i j [w Hw]. exists w. split; [exact Hw|].
    rewrite <- (build_edge_weights_dict_symmetric edges edge_weights i j).
    exact Hw.
  - intros face du dv vs pls vws tws fw s cps ws
      face' du' dv' vs' pls' vws' tws' fw' s' cps' ws'
      side slots side' slots' i j H H' Hin Hin' Hk Hk'.
    destruct (side_weights _ _ _ _ _ _ _ _ _ _ _ _ H side slots Hin)
      as (k & w & Hk1 & Hw & S1 & S2).
    destruct (side_weights _ _ _ _ _ _ _ _ _ _ _ _ H' side' slots' Hin')
      as (k' & w' & Hk1' & Hw' & S1' & S2').
    rewrite Hk in Hk1. injection Hk1 as <-.
    assert (w' = w) as ->.
    { destruct Hk' as [Hk'|Hk']; rewrite Hk' in Hk1'; injection Hk1' as <-.
      - congruence.
      - rewrite (build_edge_weights_dict_symmetric edges edge_weights j i)
          in Hw'. congruence. }
    exists w. auto.
Qed.

(** ** The loop over the faces *)

Section faces_loop_facts.

Variable vertices : list Vector.
Variable vert_planes : list PlaneEquation.
Variable vertex_weights : list Qc.
Variable tangent_weights : list Qc.
Variable edge_weights_dict : gmap (nat * nat) Qc.

Let loop := faces_loop vertices vert_planes vertex_weights tangent_weights
              edge_weights_dict.
Let patch_of (entry : list nat * Z * Z * Qc) :=
  face_patch vertices vert_planes vertex_weights tangent_weights
    edge_weights_dict entry.1.1.1 entry.1.1.2 entry.1.2 entry.2.

(** A loop that ends normally logged the faces that are not quads and
    appended one patch for each quad, in order. *)
Lemma faces_loop_Ok zipped : forall i out log out',
  loop i zipped out = (log, Ok out') ->
  log = skipped_log i (map face_of zipped) /\
  exists patches,
    Forall2 (fun entry patch => patch_of entry = Ok patch)
      (filter (fun entry => is_quad (face_of entry)) zipped) patches /\
    out' = foldl append_patch out patches.
Proof.
  induction zipped as [|[[[face du] dv] fw] rest IH]; intros i out log out' H;
    simpl in H.
  - injection H as <- <-. split; [reflexivity|]. exists []. split; constructor.
  - simpl. rewrite filter_cons.
    change (face_of (face, du, dv, fw)) with face.
    destruct (decide (length face ≠ 4%nat)) as [Hne|Heq].
    + destruct (loop (S i) rest out) as [log0 r0] eqn:E.
      injection H as <- ->.
      destruct (IH _ _ _ _ E) as (-> & patches & HF & ->).
      split; [reflexivity|].
      rewrite decide_False by exact Hne. eauto.
    + apply dec_stable in Heq.
      destruct (face_patch _ _ _ _ _ face du dv fw) as [patch|e] eqn:E;
        [|discriminate H].
      destruct (IH _ _ _ _ H) as (-> & patches & HF & ->).
      split; [reflexivity|].
      rewrite decide_True by exact Heq.
      exists (patch :: patches). split; [|reflexivity].
      constructor; [exact E|exact HF].
Qed.



(** A quad whose patch raises ends the loop with an exception, whatever
    comes before and after it. *)
Lemma faces_loop_raise l1 face du dv fw l2 e : forall i out,
  length face = 4%nat ->
  face_patch vertices vert_planes vertex_weights tangent_weights
    edge_weights_dict face du dv fw = Raise e ->
  exists e', (loop i (l1 ++ (face, du, dv, fw) :: l2) out).2 = Raise e'.
Proof.
  intros i out Hlen He. revert i out.
  induction l1 as [|[[[face' du'] dv'] fw'] l1 IH]; intros i out; simpl.
  - rewrite decide_False by (intros Hne; exact (Hne Hlen)).
    rewrite He. eauto.
  - destruct (decide (length face' ≠ 4%nat)).
    + specialize (IH (S i) out).
      destruct (loop (S i) (l1 ++ (face, du, dv, fw) :: l2) out). exact IH.
    + destruct (face_patch _ _ _ _ _ face' du' dv' fw'); [apply IH|eauto].
Qed.

End faces_loop_facts.

(** ** The body of the loop over mesh objects *)

Lemma fullList_Ok {A : Type} (l l' : list A) (count : nat) :
  fullList l count = Ok l' -> (count <= length l')%nat.
Proof.
  unfold fullList. destruct (decide (count ≤ length l)%nat) as [Hle|Hgt].
  - intros [= <-]. exact Hle.
  - destruct (last l) as [a|]; [|discriminate].
    intros [= <-]. rewrite length_app, repeat_length. lia.
Qed.

Lemma zip4_faces {B C D : Type} (la : list (list nat)) :
  forall (lb : list B) (lc : list C) (ld : list D),
  (length la <= length lb)%nat -> (length la <= length lc)%nat ->
  (length la <= length ld)%nat ->
  map (fun e : list nat * B * C * D => e.1.1.1) (zip4 la lb lc ld) = la.
Proof.
  induction la as [|a la IH]; intros [|b lb] [|c lc] [|d ld]; simpl;
    intros H1 H2 H3; try lia; try reflexivity.
  f_equal. apply IH; lia.
Qed.

Lemma filter_quads_map (zipped : list (list nat * Z * Z * Qc)) :
  map face_of (filter (fun entry => is_quad (face_of entry)) zipped)
  = filter is_quad (map face_of zipped).
Proof.
  induction zipped as [|e zipped IH]; [reflexivity|].
  simpl. rewrite !filter_cons. destruct (decide (is_quad (face_of e))); simpl;
    rewrite IH; reflexivity.
Qed.


Lemma foldl_append_patch_lengths patches : forall out,
  length (surface_out (foldl append_patch out patches))
  = (length (surface_out out) + length patches)%nat /\
  length (control_points_out (foldl append_patch out patches))
  = (length (control_points_out out) + length patches)%nat /\
  length (weights_out (foldl append_patch out patches))
  = (length (weights_out out) + length patches)%nat.
Proof.
  induction patches as [|[[s cps] ws] patches IH]; intros out.
  - simpl. repeat split; lia.
  - destruct (IH (append_patch out (s, cps, ws))) as (H1 & H2 & H3).
    cbn [foldl]. rewrite H1, H2, H3. simpl. rewrite !length_app. simpl.
    repeat split; lia.
Qed.


(** ** Missing keys *)

(** With its four frames and the four entries of the face at hand, all
    that is left of [make_surface] are the four lookups, in the order of
    lines 124-127. *)
Lemma make_surface_lookups face du dv vs pls vws tws fw tbl
    c0 c1 c2 c3 a b c d :
  frame_at vs pls vws tws 0 = Some c0 ->
  frame_at vs pls vws tws 1 = Some c1 ->
  frame_at vs pls vws tws 2 = Some c2 ->
  frame_at vs pls vws tws 3 = Some c3 ->
  face !! 0%nat = Some a -> face !! 1%nat = Some b ->
  face !! 2%nat = Some c -> face !! 3%nat = Some d ->
  make_surface face du dv vs pls vws tws fw tbl
  = (w01 ← getitem tbl (a, b);
     w03 ← getitem tbl (a, d);
     w12 ← getitem tbl (b, c);
     w23 ← getitem tbl (c, d);
     Ok (NURBS.mk du dv 4 4 (Spec.control_grid fw c0 c1 c2 c3)
           (Spec.weight_grid fw c0 c1 c2 c3 w01 w03 w12 w23)
           (knotvector.generate du 4) (knotvector.generate dv 4),
         Spec.control_grid fw c0 c1 c2 c3,
         Spec.weight_grid fw c0 c1 c2 c3 w01 w03 w12 w23)).
Proof.
  intros F0 F1 F2 F3 Ha Hb Hc Hd.
  destruct (getitem tbl (a, b)) as [w01|e] eqn:K1;
    [destruct (getitem tbl (a, d)) as [w03|e] eqn:K2;
      [destruct (getitem tbl (b, c)) as [w12|e] eqn:K3;
        [destruct (getitem tbl (c, d)) as [w23|e] eqn:K4|]|]|].
  { apply getitem_Ok in K1, K2, K3, K4.
    apply (make_surface_complete _ _ _ _ _ _ _ _ _ c0 c1 c2 c3 a b c d);
      assumption. }
  all: apply frame_at_inv in F0 as (P0 & L0 & W0 & T0);
    apply frame_at_inv in F1 as (P1 & L1 & W1 & T1);
    apply frame_at_inv in F2 as (P2 & L2 & W2 & T2);
    apply frame_at_inv in F3 as (P3 & L3 & W3 & T3);
    apply item_lookup in P0, P1, P2, P3, L0, L1, L2, L3, W0, W1, W2, W3,
      Ha, Hb, Hc, Hd;
    apply scaled_item in T0, T1, T2, T3;
    unfold make_surface, projected_edge_point, mk_face_point, mk_edge_point;
    rewrite P0, P1, P2, P3, L0, L1, L2, L3, T0, T1, T2, T3, Ha, Hb, Hc, Hd;
    cbn [mbind result_bind]; rewrite ?K1, ?K2, ?K3, ?K4;
    cbn [mbind result_bind]; rewrite ?K1, ?K2, ?K3, ?K4; reflexivity.
Qed.

Lemma getitem_None (tbl : gmap (nat * nat) Qc) (k : nat * nat) :
  tbl !! k = None -> getitem tbl k = Raise (KeyError k).
Proof. unfold getitem. intros ->. reflexivity. Qed.

Lemma getitem_cases (tbl : gmap (nat * nat) Qc) (k : nat * nat) :
  (exists w, getitem tbl k = Ok w /\ tbl !! k = Some w) \/
  (getitem tbl k = Raise (KeyError k) /\ tbl !! k = None).
Proof. unfold getitem. destruct (tbl !! k); eauto. Qed.

(** The patch of a face with a side that the table does not have is an
    exception. *)
Lemma face_patch_missing (vertices : list Vector)
    (vert_planes : list PlaneEquation) (vertex_weights tangent_weights : list Qc)
    (tbl : gmap (nat * nat) Qc) (face : list nat) (du dv : Z) (fw : Qc)
    (side slots k : nat * nat) :
  (side, slots) ∈ sides -> side_key face side = Some k -> tbl !! k = None ->
  exists e,
    face_patch vertices vert_planes vertex_weights tangent_weights tbl
      face du dv fw = Raise e.
Proof.
  intros Hin Hk Hnone.
  destruct (face_patch _ _ _ _ _ face du dv fw) as [[[s cps] ws]|e] eqn:E;
    [exfalso|eauto].
  unfold face_patch in E. invert_binds.
  destruct (side_weights _ _ _ _ _ _ _ _ _ _ _ _ E side slots Hin)
    as (k' & w & Hk' & Hw & _).
  congruence.
Qed.

(** C9: for a quad whose frames are at hand, if a boundary edge is in
    the table under neither order of its vertices, [make_surface] raises
    the [KeyError] of a failed lookup and returns no patch, and a loop
    over faces that has such a quad ends with an exception instead of
    outputs.  For a
    table built by the batch pre-pass in which every boundary edge of the
    quad appears, the call returns a patch. *)
Theorem missing_edge_weight face du dv vs pls vws tws fw
    c0 c1 c2 c3 a b c d :
  frame_at vs pls vws tws 0 = Some c0 ->
  frame_at vs pls vws tws 1 = Some c1 ->
  frame_at vs pls vws tws 2 = Some c2 ->
  frame_at vs pls vws tws 3 = Some c3 ->
  face !! 0%nat = Some a -> face !! 1%nat = Some b ->
  face !! 2%nat = Some c -> face !! 3%nat = Some d ->
  (forall (tbl : gmap (nat * nat) Qc) (x y : nat),
     (x, y) ∈ boundary_keys a b c d ->
     tbl !! (x, y) = None -> tbl !! (y, x) = None ->
     exists k,
       make_surface face du dv vs pls vws tws fw tbl = Raise (KeyError k) /\
       k ∈ boundary_keys a b c d /\ tbl !! k = None) /\
  (forall edges edge_weights,
     (forall x y : nat,
        (x, y) ∈ boundary_keys a b c d ->
        is_Some (build_edge_weights_dict edges edge_weights !! (x, y)) \/
        is_Some (build_edge_weights_dict edges edge_weights !! (y, x))) ->
     is_Ok (make_surface face du dv vs pls vws tws fw
              (build_edge_weights_dict edges edge_weights))) /\
  (forall (vertices : list Vector) (vert_planes : list PlaneEquation)
          (vertex_weights tangent_weights : list Qc)
          (tbl : gmap (nat * nat) Qc) face' du' dv' fw' side slots (x y : nat)
          l1 l2 i out,
     length face' = 4%nat ->
     (side, slots) ∈ sides -> side_key face' side = Some (x, y) ->
     tbl !! (x, y) = None -> tbl !! (y, x) = None ->
     exists e',
       (faces_loop vertices vert_planes vertex_weights tangent_weights tbl i
          (l1 ++ (face', du', dv', fw') :: l2) out).2 = Raise e').
Proof.
  intros F0 F1 F2 F3 Ha Hb Hc Hd.
  split; [|split].
  - intros tbl x y Hin Hxy _.
    rewrite (make_surface_lookups _ _ _ _ _ _ _ _ _ _ _ _ _ _ _ _ _
               F0 F1 F2 F3 Ha Hb Hc Hd).
    unfold boundary_keys in *.
    destruct (getitem_cases tbl (a, b)) as [(w1 & -> & K1)|[-> K1]];
      [|exists (a, b); cbn [mbind result_bind];
       split; [reflexivity|split; [in_list|assumption]]].
    destruct (getitem_cases tbl (a, d)) as [(w2 & -> & K2)|[-> K2]];
      [|exists (a, d); cbn [mbind result_bind];
       split; [reflexivity|split; [in_list|assumption]]].
    destruct (getitem_cases tbl (b, c)) as [(w3 & -> & K3)|[-> K3]];
      [|exists (b, c); cbn [mbind result_bind];
       split; [reflexivity|split; [in_list|assumption]]].
    destruct (getitem_cases tbl (c, d)) as [(w4 & -> & K4)|[-> K4]];
      [|exists (c, d); cbn [mbind result_bind];
       split; [reflexivity|split; [in_list|assumption]]].
    exfalso.
    repeat (apply elem_of_cons in Hin as [[= -> ->]|Hin]; [congruence|]).
    apply elem_of_nil in Hin. exact Hin.
  - intros edges edge_weights Hall.
    assert (Hk : forall x y : nat, (x, y) ∈ boundary_keys a b c d ->
              exists w, build_edge_weights_dict edges edge_weights !! (x, y)
                        = Some w).
    { intros x y Hin. destruct (Hall x y Hin) as [[w Hw]|[w Hw]].
      - eauto.
      - exists w.
        rewrite (build_edge_weights_dict_symmetric edges edge_weights x y).
        exact Hw. }
    unfold boundary_keys in Hk.
    destruct (Hk a b) as [w01 K1]; [in_list|].
    destruct (Hk a d) as [w03 K2]; [in_list|].
    destruct (Hk b c) as [w12 K3]; [in_list|].
    destruct (Hk c d) as [w23 K4]; [in_list|].
    eexists.
    apply (make_surface_complete _ _ _ _ _ _ _ _ _ c0 c1 c2 c3 a b c d
             w01 w03 w12 w23); assumption.
  - intros vertices vert_planes vertex_weights tangent_weights tbl
      face' du' dv' fw' side slots x y l1 l2 i out Hlen Hin Hk Hxy _.
    destruct (face_patch_missing vertices vert_planes vertex_weights
                tangent_weights tbl face' du' dv' fw' side slots (x, y)
                Hin Hk Hxy) as [e He].
    apply (faces_loop_raise _ _ _ _ _ l1 face' du' dv' fw' l2 e i out Hlen He).
Qed.

(** ** Degenerate tangent weights *)

Lemma zero_influence (v d : Vector) :
  (v + Vector.rmul (0 / Q2Qc 3) d)%V = v.
Proof. apply Vector_eq; simpl; unfold Qcdiv; ring. Qed.

Lemma zero_face_influence (v d d' : Vector) (m : Qc) :
  (v + Vector.rmul (m * (0 / Q2Qc 3)) d
     + Vector.rmul (m * (0 / Q2Qc 3)) d')%V = v.
Proof. apply Vector_eq; simpl; unfold Qcdiv; ring. Qed.

Lemma edge_point_zero (ci cj : Spec.VertexFrame) :
  Spec.tangent_weight ci = 0 ->
  Spec.edge_point ci cj
  = PlaneEquation.projection_of_point (Spec.plane ci) (Spec.position ci).
Proof.
  intros H. unfold Spec.edge_point, Spec.raw_edge_point, Spec.influence.
  rewrite H, zero_influence. reflexivity.
Qed.

Lemma face_point_zero (fw : Qc) (ci cj ck : Spec.VertexFrame) :
  Spec.tangent_weight ci = 0 ->
  Spec.face_point fw ci cj ck
  = PlaneEquation.projection_of_point (Spec.plane ci) (Spec.position ci).
Proof.
  intros H. unfold Spec.face_point, Spec.influence.
  rewrite H, zero_face_influence. reflexivity.
Qed.

Lemma frame_tangent_zero vs pls vws tws i ci :
  Forall (fun t => t = 0) tws ->
  frame_at vs pls vws tws i = Some ci -> Spec.tangent_weight ci = 0.
Proof.
  intros Hz F. apply frame_at_inv in F as (_ & _ & _ & T).
  apply (Forall_lookup_1 _ _ _ _ Hz T).
Qed.

(** The tangent plane [process] builds for a vertex passes through the
    vertex (line 192). *)
Lemma vert_planes_contain vertex_normals vertices edges faces i pl :
  vert_planes_of vertex_normals vertices edges faces !! i = Some pl ->
  exists v, vertices !! i = Some v /\ PlaneEquation.contains pl v.
Proof.
  unfold vert_planes_of. rewrite list_lookup_fmap.
  destruct (zip _ vertices !! i) as [[n v]|] eqn:E; [|discriminate].
  apply lookup_zip_Some in E as [_ Hv].
  simpl. intros [= <-]. exists v. split; [exact Hv|].
  apply from_normal_and_point_contains.
Qed.

(** Whether [make_surface] returns a patch depends on how many tangent
    weights there are, not on their values. *)
Lemma make_surface_Ok_tangent face du dv vs pls vws tws tws' fw tbl :
  length tws = length tws' ->
  is_Ok (make_surface face du dv vs pls vws tws' fw tbl) ->
  is_Ok (make_surface face du dv vs pls vws tws fw tbl).
Proof.
  intros Hlen [[[s cps] ws] H].
  apply make_surface_inv in H
    as (c0 & c1 & c2 & c3 & a & b & c & d & w01 & w03 & w12 & w23 &
        F0 & F1 & F2 & F3 & Ha & Hb & Hc & Hd & K1 & K2 & K3 & K4 & _).
  assert (Hf : forall i ci, frame_at vs pls vws tws' i = Some ci ->
             exists ci', frame_at vs pls vws tws i = Some ci').
  { intros i ci F. apply frame_at_inv in F as (P & L & W & T).
    destruct (lookup_lt_is_Some_2 tws i) as [t Ht].
    - rewrite Hlen. apply lookup_lt_is_Some_1. eauto.
    - eexists. apply (frame_at_Some _ _ _ _ _ _ _ _ _ P L W Ht). }
  destruct (Hf _ _ F0) as [c0' F0'], (Hf _ _ F1) as [c1' F1'],
    (Hf _ _ F2) as [c2' F2'], (Hf _ _ F3) as [c3' F3'].
  eexists.
  apply (make_surface_complete _ _ _ _ _ _ _ _ _ c0' c1' c2' c3' a b c d
           w01 w03 w12 w23); assumption.
Qed.

(** C6: if every tangent weight of the quad is 0 the call is as good as
    with any other tangent weights, and in the patch it returns each of
    the 8 edge control points is the originating corner's position
    projected onto that corner's tangent plane, which is the position
    itself when the plane passes through it, as the planes [process]
    builds do; each of the 4 face control points is the corner's
    position projected onto that corner's tangent plane. *)
Theorem zero_tangent_weights face du dv vs pls vws tws fw tbl :
  Forall (fun t => t = 0) tws ->
  (forall tws', length tws = length tws' ->
     is_Ok (make_surface face du dv vs pls vws tws' fw tbl) ->
     is_Ok (make_surface face du dv vs pls vws tws fw tbl)) /\
  (forall s cps ws,
     make_surface face du dv vs pls vws tws fw tbl = Ok (s, cps, ws) ->
     (forall i j slot, edge_slot i j = Some slot ->
        exists ci,
          frame_at vs pls vws tws i = Some ci /\
          cps !! slot
          = Some (PlaneEquation.projection_of_point (Spec.plane ci)
                    (Spec.position ci)) /\
          (PlaneEquation.contains (Spec.plane ci) (Spec.position ci) ->
           cps !! slot = Some (Spec.position ci))) /\
     (forall i slot jk, face_slot i = Some (slot, jk) ->
        exists ci,
          frame_at vs pls vws tws i = Some ci /\
          cps !! slot
          = Some (PlaneEquation.projection_of_point (Spec.plane ci)
                    (Spec.position ci)))) /\
  (forall vertex_normals vertices edges faces i pl,
     vert_planes_of vertex_normals vertices edges faces !! i = Some pl ->
     exists v, vertices !! i = Some v /\ PlaneEquation.contains pl v).
Proof.
  intros Hz. split; [|split].
  - intros tws' Hlen. apply make_surface_Ok_tangent, Hlen.
  - intros s cps ws H.
    apply make_surface_inv in H
      as (c0 & c1 & c2 & c3 & a & b & c & d & w01 & w03 & w12 & w23 &
          F0 & F1 & F2 & F3 & _ & _ & _ & _ & _ & _ & _ & _ & -> & _ & _).
    pose proof (frame_tangent_zero _ _ _ _ _ _ Hz F0) as Z0.
    pose proof (frame_tangent_zero _ _ _ _ _ _ Hz F1) as Z1.
    pose proof (frame_tangent_zero _ _ _ _ _ _ Hz F2) as Z2.
    pose proof (frame_tangent_zero _ _ _ _ _ _ Hz F3) as Z3.
    unfold Spec.control_grid.
    rewrite !(edge_point_zero c0), !(edge_point_zero c1),
      !(edge_point_zero c2), !(edge_point_zero c3),
      !(face_point_zero fw c0), !(face_point_zero fw c1),
      !(face_point_zero fw c2), !(face_point_zero fw c3) by assumption.
    split.
    + intros i j slot Hslot.
      destruct i as [|[|[|[|i]]]]; destruct j as [|[|[|[|j]]]];
        simpl in Hslot; try discriminate Hslot; injection Hslot as <-;
        eexists; (split; [eassumption|split; [reflexivity|]]);
        intros Hc; simpl; rewrite (projection_of_contained _ _ Hc);
        reflexivity.
    + intros i slot jk Hslot.
      destruct i as [|[|[|[|i]]]]; simpl in Hslot; try discriminate Hslot;
        injection Hslot as <- <-;
        eexists; (split; [eassumption|reflexivity]).
  - intros. eapply vert_planes_contain. eassumption.
Qed.

(** C10: when the edge list names the unordered pair {i, j} several
    times, in either order, the table the batch pre-pass builds gives
    both (i, j) and (j, i) the weight paired with the last of these
    edges; the weights of the earlier ones are overwritten, and building
    the table raises nothing and logs nothing. *)
Theorem last_edge_weight_wins edges edge_weights (n a b i j : nat) (w : Qc) :
  edges !! n = Some (a, b) ->
  edge_weights !! n = Some w ->
  (a, b) = (i, j) \/ (a, b) = (j, i) ->
  (forall n' e, (n < n')%nat -> edges !! n' = Some e ->
                e <> (i, j) /\ e <> (j, i)) ->
  build_edge_weights_dict edges edge_weights !! (i, j) = Some w /\
  build_edge_weights_dict edges edge_weights !! (j, i) = Some w.
Proof.
  intros He Hw Hab Hlast.
  assert (H : build_edge_weights_dict edges edge_weights !! (i, j) = Some w).
  { unfold build_edge_weights_dict.
    apply (fill_edge_weights_last _ _ n a b i j w).
    - apply lookup_zip_Some. auto.
    - exact Hab.
    - intros n' e w' Hlt Hn'. apply lookup_zip_Some in Hn' as [Hn' _].
      apply (Hlast n' e Hlt Hn'). }
  split; [exact H|].
  rewrite <- (build_edge_weights_dict_symmetric edges edge_weights i j).
  exact H.
Qed.

Lemma zero_tangent_weights_witness :
  exists s cps ws,
    UnitSquare.patch 0 = Ok (s, cps, ws) /\
    cps !! 1%nat = Some (Vector.mk 0 0 0).
Proof.
  assert (Hz : Forall (fun t : Qc => t = 0) [0; 0; 0; 0])
    by (repeat constructor).
  destruct (zero_tangent_weights UnitSquare.quad 3 3 UnitSquare.corners
              UnitSquare.planes UnitSquare.ones [0; 0; 0; 0] 1
              UnitSquare.table Hz) as (_ & H & _).
  destruct (H _ _ _ (unit_square_patch_eq 0)) as (Hedge & _).
  destruct (Hedge 0%nat 1%nat 1%nat eq_refl) as (ci & Fi & _ & Hc).
  injection Fi as <-.
  do 3 eexists. split; [apply (unit_square_patch_eq 0)|].
  apply Hc. apply from_normal_and_point_contains.
Defined.

Lemma shared_edge_weight_witness :
  exists w sl cl wl sr cr wr,
    Strip.patch Strip.left_quad = Ok (sl, cl, wl) /\
    Strip.patch Strip.right_quad = Ok (sr, cr, wr) /\
    wl !! 7%nat = Some w /\ wl !! 11%nat = Some w /\
    wr !! 1%nat = Some w /\ wr !! 2%nat = Some w.
Proof.
  eassert (Hl : Strip.patch Strip.left_quad = Ok (_, _, _))
    by (eapply make_surface_complete; reflexivity).
  eassert (Hr : Strip.patch Strip.right_quad = Ok (_, _, _))
    by (eapply make_surface_complete; reflexivity).
  destruct (shared_edge_weight Strip.edges
              [1; Q2Qc 2; Q2Qc 3; Q2Qc 3; Q2Qc 3; Q2Qc 3; Q2Qc 3; Q2Qc 3;
               Q2Qc 3]) as [_ H].
  destruct (H _ _ _ _ _ _ _ _ _ _ _ _ _ _ _ _ _ _ _ _ _ _
              (1, 2)%nat (7, 11)%nat (0, 1)%nat (1, 2)%nat 1%nat 2%nat Hl Hr)
    as (w & H1 & H2 & H3 & H4);
    [in_list | in_list | reflexivity | right; reflexivity |].
  exists w. do 6 eexists. repeat split; eassumption.
Defined.


Lemma missing_edge_weight_witness :
  (exists k,
     make_surface UnitSquare.quad 3 3 UnitSquare.corners UnitSquare.planes
       UnitSquare.ones [1; 1; 1; 1] 1 ∅ = Raise (KeyError k)) /\
  is_Ok (UnitSquare.patch 1).
Proof.
  destruct (missing_edge_weight UnitSquare.quad 3 3 UnitSquare.corners
              UnitSquare.planes UnitSquare.ones [1; 1; 1; 1] 1
              _ _ _ _ 0%nat 1%nat 2%nat 3%nat
              eq_refl eq_refl eq_refl eq_refl eq_refl eq_refl eq_refl eq_refl)
    as (H1 & H2 & _).
  split.
  - destruct (H1 ∅ 0%nat 1%nat) as (k & Hk & _);
      [in_list | reflexivity | reflexivity |].
    exists k. exact Hk.
  - apply (H2 UnitSquare.edges UnitSquare.ones).
    intros x y Hin. left. unfold boundary_keys in Hin.
    repeat (apply elem_of_cons in Hin as [[= -> ->]|Hin];
            [eexists; reflexivity|]).
    apply elem_of_nil in Hin as [].
Defined.

Lemma last_edge_weight_wins_witness :
  build_edge_weights_dict [(0, 1); (1, 0)]%nat [1; Q2Qc 2] !! (0, 1)%nat
  = Some (Q2Qc 2) /\
  build_edge_weights_dict [(0, 1); (1, 0)]%nat [1; Q2Qc 2] !! (1, 0)%nat
  = Some (Q2Qc 2).
Proof.
  apply (last_edge_weight_wins [(0, 1); (1, 0)]%nat [1; Q2Qc 2]
           1%nat 1%nat 0%nat 0%nat 1%nat (Q2Qc 2)).
  - reflexivity.
  - reflexivity.
  - right. reflexivity.
  - intros n' e Hlt Hn'. destruct n' as [|[|n']]; [lia|lia|discriminate Hn'].
Defined.

(** * Further properties of the code *)

Implicit Types (face : list nat) (du dv : Z) (vs : list Vector).
Implicit Types (pls : list PlaneEquation) (vws tws : list Qc) (fw : Qc).
Implicit Types (tbl : gmap (nat * nat) Qc).

(** ** When [make_surface] returns *)






(** ** How [make_surface] fails *)











(** ** What the grids depend on *)

Lemma control_grid_ext fw (c0 c1 c2 c3 c0' c1' c2' c3' : Spec.VertexFrame) :
  (forall c c', (c, c') ∈ [(c0, c0'); (c1, c1'); (c2, c2'); (c3, c3')] ->
     Spec.position c = Spec.position c' /\ Spec.plane c = Spec.plane c' /\
     Spec.tangent_weight c = Spec.tangent_weight c') ->
  Spec.control_grid fw c0 c1 c2 c3 = Spec.control_grid fw c0' c1' c2' c3'.
Proof.
  intros H.
  destruct (H c0 c0') as (P0 & L0 & T0); [in_list|].
  destruct (H c1 c1') as (P1 & L1 & T1); [in_list|].
  destruct (H c2 c2') as (P2 & L2 & T2); [in_list|].
  destruct (H c3 c3') as (P3 & L3 & T3); [in_list|].
  unfold Spec.control_grid, Spec.edge_point, Spec.face_point,
    Spec.raw_edge_point, Spec.influence.
  rewrite P0, P1, P2, P3, L0, L1, L2, L3, T0, T1, T2, T3. reflexivity.
Qed.



(** X4: the control points are decided by the first four vertices,
    planes and tangent weights and by the face weight: two calls that
    return and agree on these return the same control points, whatever
    the face, the vertex weights, the table and the degrees are; entries
    after the fourth are never read. *)
Theorem control_points_footprint
    face du dv vs pls vws tws fw tbl s cps ws
    face' du' dv' vs' pls' vws' tws' tbl' s' cps' ws' :
  make_surface face du dv vs pls vws tws fw tbl = Ok (s, cps, ws) ->
  make_surface face' du' dv' vs' pls' vws' tws' fw tbl' = Ok (s', cps', ws') ->
  take 4 vs = take 4 vs' -> take 4 pls = take 4 pls' ->
  take 4 tws = take 4 tws' ->
  cps' = cps.
Proof.
  intros H H' Hv Hp Ht.
  assert (Hlk : forall (A : Type) (l l' : list A) (i : nat),
            take 4 l = take 4 l' -> (i < 4)%nat -> l !! i = l' !! i).
  { intros A l l' i Htk Hi.
    assert (E : take 4 l !! i = take 4 l' !! i) by (rewrite Htk; reflexivity).
    rewrite !lookup_take, !decide_True in E by exact Hi. exact E. }
  apply make_surface_inv in H
    as (c0 & c1 & c2 & c3 & a & b & c & d & w01 & w03 & w12 & w23 &
        F0 & F1 & F2 & F3 & _ & _ & _ & _ & _ & _ & _ & _ & -> & _ & _).
  apply make_surface_inv in H'
    as (c0' & c1' & c2' & c3' & a' & b' & c' & d' & w01' & w03' & w12' & w23' &
        F0' & F1' & F2' & F3' & _ & _ & _ & _ & _ & _ & _ & _ & -> & _ & _).
  assert (Hf : forall (i : nat) ci ci', (i < 4)%nat ->
            frame_at vs pls vws tws i = Some ci ->
            frame_at vs' pls' vws' tws' i = Some ci' ->
            Spec.position ci' = Spec.position ci /\
            Spec.plane ci' = Spec.plane ci /\
            Spec.tangent_weight ci' = Spec.tangent_weight ci).
  { intros i ci ci' Hi F F'.
    apply frame_at_inv in F as (P & L & _ & T).
    apply frame_at_inv in F' as (P' & L' & _ & T').
    rewrite (Hlk _ _ _ i Hv Hi) in P. rewrite (Hlk _ _ _ i Hp Hi) in L.
    rewrite (Hlk _ _ _ i Ht Hi) in T.
    repeat split; congruence. }
  apply control_grid_ext. intros x x' Hin.
  repeat (apply elem_of_cons in Hin as [[= -> ->]|Hin];
          [eapply Hf; [|eassumption|eassumption]; lia|]).
  apply elem_of_nil in Hin as [].
Qed.

Lemma control_points_footprint_witness :
  exists s' ws',
    make_surface UnitSquare.quad 2 2 (UnitSquare.corners ++ [UnitSquare.up])
      UnitSquare.planes [Q2Qc 2; Q2Qc 2; Q2Qc 2; Q2Qc 2] [1; 1; 1; 1; Q2Qc 5]
      1 UnitSquare.table
    = Ok (s', Spec.control_grid 1 (UnitSquare.frame 0 1) (UnitSquare.frame 1 1)
                (UnitSquare.frame 2 1) (UnitSquare.frame 3 1), ws').
Proof.
  eassert (H' : make_surface UnitSquare.quad 2 2
                  (UnitSquare.corners ++ [UnitSquare.up]) UnitSquare.planes
                  [Q2Qc 2; Q2Qc 2; Q2Qc 2; Q2Qc 2] [1; 1; 1; 1; Q2Qc 5]
                  1 UnitSquare.table = Ok (_, _, _))
    by (eapply make_surface_complete; reflexivity).
  pose proof (control_points_footprint _ _ _ _ _ _ _ _ _ _ _ _
                _ _ _ _ _ _ _ _ _ _ _
                (unit_square_patch_eq 1) H' eq_refl eq_refl eq_refl) as E.
  do 2 eexists. rewrite <- E. exact H'.
Defined.

Lemma looked_up_quad face (a b c d : nat) :
  face !! 0%nat = Some a -> face !! 1%nat = Some b ->
  face !! 2%nat = Some c -> face !! 3%nat = Some d ->
  looked_up face = [ (a, b); (a, d); (b, c); (c, d) ].
Proof.
  intros Ha Hb Hc Hd. unfold looked_up, sides, side_key. simpl.
  rewrite Ha, Hb, Hc, Hd. reflexivity.
Qed.

(** X5: the weights are decided by the first four vertex weights, the
    face weight and what the table holds for the four keys of the face:
    two calls that return and agree on these return the same weights,
    whatever the geometry and the degrees are. *)
Theorem weights_footprint
    face du dv vs pls vws tws fw tbl s cps ws
    face' du' dv' vs' pls' vws' tws' tbl' s' cps' ws' :
  make_surface face du dv vs pls vws tws fw tbl = Ok (s, cps, ws) ->
  make_surface face' du' dv' vs' pls' vws' tws' fw tbl' = Ok (s', cps', ws') ->
  take 4 vws = take 4 vws' ->
  map (fun k => tbl !! k) (looked_up face)
  = map (fun k => tbl' !! k) (looked_up face') ->
  ws' = ws.
Proof.
  intros H H' Hw Hk.
  assert (Hlk : forall (i : nat), (i < 4)%nat -> vws !! i = vws' !! i).
  { intros i Hi.
    assert (E : take 4 vws !! i = take 4 vws' !! i) by (rewrite Hw; reflexivity).
    rewrite !lookup_take, !decide_True in E by exact Hi. exact E. }
  apply make_surface_inv in H
    as (c0 & c1 & c2 & c3 & a & b & c & d & w01 & w03 & w12 & w23 &
        F0 & F1 & F2 & F3 & Ha & Hb & Hc & Hd & K1 & K2 & K3 & K4 &
        _ & -> & _).
  apply make_surface_inv in H'
    as (c0' & c1' & c2' & c3' & a' & b' & c' & d' & w01' & w03' & w12' & w23' &
        F0' & F1' & F2' & F3' & Ha' & Hb' & Hc' & Hd' & K1' & K2' & K3' & K4' &
        _ & -> & _).
  rewrite (looked_up_quad _ _ _ _ _ Ha Hb Hc Hd),
    (looked_up_quad _ _ _ _ _ Ha' Hb' Hc' Hd') in Hk.
  simpl in Hk. rewrite K1, K2, K3, K4, K1', K2', K3', K4' in Hk.
  injection Hk as -> -> -> ->.
  apply frame_at_inv in F0 as (_ & _ & W0 & _), F1 as (_ & _ & W1 & _),
    F2 as (_ & _ & W2 & _), F3 as (_ & _ & W3 & _).
  apply frame_at_inv in F0' as (_ & _ & W0' & _), F1' as (_ & _ & W1' & _),
    F2' as (_ & _ & W2' & _), F3' as (_ & _ & W3' & _).
  rewrite (Hlk 0%nat) in W0 by lia. rewrite (Hlk 1%nat) in W1 by lia.
  rewrite (Hlk 2%nat) in W2 by lia. rewrite (Hlk 3%nat) in W3 by lia.
  unfold Spec.weight_grid.
  replace (Spec.vertex_weight c0') with (Spec.vertex_weight c0) by congruence.
  replace (Spec.vertex_weight c1') with (Spec.vertex_weight c1) by congruence.
  replace (Spec.vertex_weight c2') with (Spec.vertex_weight c2) by congruence.
  replace (Spec.vertex_weight c3') with (Spec.vertex_weight c3) by congruence.
  reflexivity.
Qed.

Lemma weights_footprint_witness :
  exists s' cps',
    make_surface UnitSquare.quad 2 2 (UnitSquare.corners ++ [UnitSquare.up])
      UnitSquare.planes [1; 1; 1; 1; Q2Qc 2] [0; 0; 0; 0] 1 UnitSquare.table
    = Ok (s', cps',
          Spec.weight_grid 1 (UnitSquare.frame 0 1) (UnitSquare.frame 1 1)
            (UnitSquare.frame 2 1) (UnitSquare.frame 3 1) 1 1 1 1).
Proof.
  eassert (H' : make_surface UnitSquare.quad 2 2
                  (UnitSquare.corners ++ [UnitSquare.up]) UnitSquare.planes
                  [1; 1; 1; 1; Q2Qc 2] [0; 0; 0; 0] 1 UnitSquare.table
                = Ok (_, _, _))
    by (eapply make_surface_complete; reflexivity).
  pose proof (weights_footprint _ _ _ _ _ _ _ _ _ _ _ _
                _ _ _ _ _ _ _ _ _ _ _
                (unit_square_patch_eq 1) H' eq_refl eq_refl) as E.
  do 2 eexists. rewrite <- E. exact H'.
Defined.

(** ** Tangent weight 3.0 *)




(** ** Reading the edge-weight table *)

(** A key of the filled table was written by the last pair that names
    its edge, or was in the table before and no pair names it. *)
Lemma fill_edge_weights_inv (zipped : list ((nat * nat) * Qc)) :
  forall (m : gmap (nat * nat) Qc) (i j : nat) (w : Qc),
  fill_edge_weights zipped m !! (i, j) = Some w ->
  (exists (n : nat) e,
     zipped !! n = Some (e, w) /\ names_edge e i j /\
     forall (n' : nat) e' w', (n < n')%nat -> zipped !! n' = Some (e', w') ->
                      ~ names_edge e' i j) \/
  ((forall (n : nat) e' w', zipped !! n = Some (e', w') -> ~ names_edge e' i j) /\
   m !! (i, j) = Some w).
Proof.
  induction zipped as [|[[a b] w0] rest IH]; intros m i j w H; simpl in H.
  - right. split; [intros n e' w' Hn; discriminate Hn|exact H].
  - apply IH in H as [(n & e & Hn & He & Hlast)|[Hnone Hm]].
    + left. exists (S n), e. split; [exact Hn|split; [exact He|]].
      intros [|n'] e' w' Hlt Hn'; [lia|].
      apply (Hlast n' e' w'); [lia|exact Hn'].
    + destruct (decide (names_edge (a, b) i j)) as [Hab|Hab].
      * left. exists 0%nat, (a, b). split; [|split; [exact Hab|]].
        -- simpl. f_equal. f_equal.
           rewrite !lookup_insert in Hm.
           destruct Hab as [[= -> ->]|[= -> ->]];
             repeat case_decide; simplify_eq; auto.
        -- intros [|n'] e' w' Hlt Hn'; [lia|]. apply (Hnone n' e' w' Hn').
      * right. split.
        -- intros [|n] e' w' Hn.
           ++ injection Hn as <- <-. exact Hab.
           ++ apply (Hnone n e' w' Hn).
        -- rewrite !lookup_insert in Hm. unfold names_edge in Hab.
           repeat case_decide; simplify_eq; tauto.
Qed.

(** X7: the table of the batch pre-pass gives the key (i, j) the weight
    w exactly when the edge list, cut to the length of the weight list,
    names the edge {i, j} and the last edge that does is paired with
    w. *)
Theorem edge_weight_lookup_iff edges edge_weights (i j : nat) (w : Qc) :
  build_edge_weights_dict edges edge_weights !! (i, j) = Some w <->
  exists (n : nat) e,
    edges !! n = Some e /\ edge_weights !! n = Some w /\ names_edge e i j /\
    forall (n' : nat) e' w',
      (n < n')%nat -> edges !! n' = Some e' -> edge_weights !! n' = Some w' ->
      ~ names_edge e' i j.
Proof.
  unfold build_edge_weights_dict. split.
  - intros H. apply fill_edge_weights_inv in H
      as [(n & e & Hn & He & Hlast)|[_ Hm]];
      [|rewrite lookup_empty in Hm; discriminate Hm].
    apply lookup_zip_Some in Hn as [Hn1 Hn2].
    exists n, e. repeat split; try assumption.
    intros n' e' w' Hlt H1 H2. apply (Hlast n' e' w' Hlt).
    apply lookup_zip_Some. auto.
  - intros (n & [a b] & Hn1 & Hn2 & He & Hlast).
    apply (fill_edge_weights_last _ _ n a b i j w).
    + apply lookup_zip_Some. auto.
    + exact He.
    + intros n' e' w' Hlt Hn'. apply lookup_zip_Some in Hn' as [H1 H2].
      pose proof (Hlast n' e' w' Hlt H1 H2) as Hno. unfold names_edge in Hno.
      split; intros ->; apply Hno; auto.
Qed.

Lemma build_edge_weights_dict_None edges edge_weights (i j : nat) :
  build_edge_weights_dict edges edge_weights !! (i, j) = None <->
  forall (n : nat) e w,
    edges !! n = Some e -> edge_weights !! n = Some w -> ~ names_edge e i j.
Proof.
  unfold build_edge_weights_dict. split.
  - intros H n e w Hn1 Hn2 He.
    assert (Hz : zip edges edge_weights !! n = Some (e, w))
      by (apply lookup_zip_Some; auto).
    clear Hn1 Hn2. revert H n e w Hz He.
    generalize (∅ : gmap (nat * nat) Qc).
    induction (zip edges edge_weights) as [|[[a b] w0] rest IH];
      intros m H n e w Hz He; [discriminate Hz|].
    simpl in H. destruct n as [|n]; simpl in Hz.
    + injection Hz as <- <-.
      assert (Hrest : forall (n' : nat) e' w', rest !! n' = Some (e', w') ->
                e' <> (i, j) /\ e' <> (j, i)).
      { intros n' e' w' Hn'.
        destruct (decide (names_edge e' i j)) as [He'|He'].
        - exfalso. apply (IH _ H n' e' w' Hn' He').
        - unfold names_edge in He'. tauto. }
      rewrite (fill_edge_weights_other _ _ _ _ Hrest) in H.
      rewrite !lookup_insert in H.
      destruct He as [[= -> ->]|[= -> ->]]; repeat case_decide;
        simplify_eq; auto.
    + apply (IH _ H n e w Hz He).
  - intros Hno.
    rewrite fill_edge_weights_other; [apply lookup_empty|].
    intros n e w Hn. apply lookup_zip_Some in Hn as [H1 H2].
    pose proof (Hno n e w H1 H2) as He. unfold names_edge in He. tauto.
Qed.

(** X8: a key (i, j) is missing from the table of the batch pre-pass
    exactly when no edge that has a weight names {i, j}; an edge beyond
    the end of the weight list is left out of the table. *)
Theorem edge_weight_missing_iff edges edge_weights (i j : nat) :
  build_edge_weights_dict edges edge_weights !! (i, j) = None <->
  forall (n : nat) e w,
    edges !! n = Some e -> edge_weights !! n = Some w -> ~ names_edge e i j.
Proof. apply build_edge_weights_dict_None. Qed.

Lemma edge_weight_lookup_iff_witness :
  build_edge_weights_dict [(4, 2); (2, 4); (1, 3)]%nat [1; Q2Qc 2; Q2Qc 3]
    !! (4, 2)%nat = Some (Q2Qc 2).
Proof.
  apply edge_weight_lookup_iff. exists 1%nat, (2, 4)%nat.
  repeat split; try reflexivity.
  - right. reflexivity.
  - intros [|[|[|n']]] e' w' Hlt H1 H2; try lia.
    + injection H1 as <-. intros [[=]|[=]].
    + discriminate H1.
Defined.

Lemma edge_weight_missing_iff_witness :
  build_edge_weights_dict [(0, 1); (1, 2)]%nat [1] !! (2, 1)%nat = None.
Proof.
  apply edge_weight_missing_iff.
  intros [|[|n]] e w H1 H2; try discriminate H2.
  injection H1 as <-. intros [[=]|[=]].
Defined.

(** ** The patch of one face *)

Lemma item_None {A : Type} (l : list A) (i : nat) :
  l !! i = None -> item l i = Raise IndexError.
Proof. unfold item. intros ->. reflexivity. Qed.

Lemma comprehension_item_cases {A : Type} (l : list A) (idx : list nat) :
  (exists r, comprehension (item l) idx = Ok r /\
             length r = length idx /\
             forall (n : nat) i, idx !! n = Some i -> r !! n = l !! i) \/
  (comprehension (item l) idx = Raise IndexError /\
   exists i, i ∈ idx /\ (length l <= i)%nat).
Proof.
  induction idx as [|i idx IH]; simpl.
  - left. exists []. split; [reflexivity|split; [reflexivity|]].
    intros n i Hn. discriminate Hn.
  - destruct (l !! i) as [a|] eqn:E.
    + rewrite (item_lookup _ _ _ E).
      destruct IH as [(r & -> & Hlen & Hr)|[-> (i' & Hin & Hi')]].
      * left. exists (a :: r).
        split; [reflexivity|split; [simpl; rewrite Hlen; reflexivity|]].
        intros [|n] i0 Hn; simpl in *.
        -- injection Hn as <-. symmetry. exact E.
        -- apply Hr, Hn.
      * right. split; [reflexivity|]. exists i'. split; [|exact Hi'].
        apply list_elem_of_further, Hin.
    + rewrite (item_None _ _ E).
      right. split; [reflexivity|]. exists i. split; [apply list_elem_of_here|].
      apply lookup_ge_None, E.
Qed.

Lemma comprehension_item_Ok {A : Type} (l : list A) (idx : list nat) :
  Forall (fun i => (i < length l)%nat) idx ->
  exists r, comprehension (item l) idx = Ok r /\
            length r = length idx /\
            forall (n : nat) i, idx !! n = Some i -> r !! n = l !! i.
Proof.
  intros Hall.
  destruct (comprehension_item_cases l idx) as [H|[_ (i & Hin & Hi)]];
    [exact H|].
  rewrite Forall_forall in Hall. specialize (Hall i Hin). lia.
Qed.






(** ** The loops *)



(** What a loop over faces raises, and what it logs before, does not
    depend on the outputs collected so far. *)
Lemma faces_loop_raise_any_outputs vertices vert_planes vertex_weights
    tangent_weights tbl (zipped : list (list nat * Z * Z * Qc)) :
  forall i out out' log e,
    faces_loop vertices vert_planes vertex_weights tangent_weights tbl
      i zipped out = (log, Raise e) ->
    faces_loop vertices vert_planes vertex_weights tangent_weights tbl
      i zipped out' = (log, Raise e).
Proof.
  induction zipped as [|[[[face du] dv] fw] rest IH];
    intros i out out' log e H; simpl in *.
  - discriminate H.
  - destruct (decide (length face ≠ 4%nat)).
    + destruct (faces_loop _ _ _ _ _ (S i) rest out) as [log0 r0] eqn:E.
      injection H as <- ->. rewrite (IH _ _ out' _ _ E). reflexivity.
    + destruct (face_patch _ _ _ _ _ face du dv fw) as [patch|e'].
      * apply (IH _ _ _ _ _ H).
      * exact H.
Qed.

Lemma process_object_raise_any_outputs polygons_to_edges vertex_normals
    (m : mesh_input) out out' log e :
  process_object polygons_to_edges vertex_normals m out = (log, Raise e) ->
  process_object polygons_to_edges vertex_normals m out' = (log, Raise e).
Proof.
  unfold process_object.
  destruct (fullList (in_degree_u m) _ ≫= _) as [[[[[[[? ?] ?] ?] ?] ?] ?]|e'].
  - apply faces_loop_raise_any_outputs.
  - auto.
Qed.

(** A mesh object whose body ends normally logged its non-quads and
    appended one patch per quad. *)
Lemma process_object_Ok polygons_to_edges vertex_normals
    (m : mesh_input) out log out' :
  process_object polygons_to_edges vertex_normals m out = (log, Ok out') ->
  log = skipped_log 0 (in_faces m) /\
  exists patches,
    length patches = length (filter is_quad (in_faces m)) /\
    out' = foldl append_patch out patches.
Proof.
  intros H. unfold process_object in H.
  destruct (fullList (in_degree_u m) _) as [du|] eqn:Edu; [|discriminate H].
  destruct (fullList (in_degree_v m) _) as [dv|] eqn:Edv; [|discriminate H].
  destruct (fullList (in_vertex_weights m) _) as [vw|] eqn:Evw;
    [|discriminate H].
  destruct (fullList (in_tangent_weights m) _) as [tw|] eqn:Etw;
    [|discriminate H].
  destruct (fullList (in_edge_weights m) _) as [ew|] eqn:Eew;
    [|discriminate H].
  destruct (fullList (in_face_weights m) _) as [fws|] eqn:Efw;
    [|discriminate H].
  cbn [mbind result_bind] in H.
  apply fullList_Ok in Edu, Edv, Efw.
  pose proof (zip4_faces (in_faces m) du dv fws Edu Edv Efw) as Hfaces.
  change (fun e : list nat * Z * Z * Qc => e.1.1.1) with face_of in Hfaces.
  apply faces_loop_Ok in H as (-> & patches & HF & ->).
  rewrite Hfaces. split; [reflexivity|].
  exists patches. split; [|reflexivity].
  rewrite <- (Forall2_length _ _ _ HF).
  rewrite <- (length_map face_of), filter_quads_map, Hfaces.
  reflexivity.
Qed.

Lemma process_objects_Ok polygons_to_edges vertex_normals
    (inputs : list mesh_input) : forall out log out',
  process_objects polygons_to_edges vertex_normals inputs out = (log, Ok out') ->
  log = batch_log inputs /\
  exists patches,
    length patches = count_quads inputs /\
    out' = foldl append_patch out patches.
Proof.
  induction inputs as [|m rest IH]; intros out log out' H; simpl in H.
  - injection H as <- <-. split; [reflexivity|]. exists []. split; reflexivity.
  - destruct (process_object _ _ m out) as [log1 [out1|e]] eqn:E1;
      [|discriminate H].
    destruct (process_objects _ _ rest out1) as [log2 r2] eqn:E2.
    injection H as <- ->.
    apply process_object_Ok in E1 as (-> & p1 & L1 & ->).
    apply IH in E2 as (-> & p2 & L2 & ->).
    split; [reflexivity|].
    exists (p1 ++ p2). split.
    + rewrite length_app, L1, L2. reflexivity.
    + rewrite foldl_app. reflexivity.
Qed.

(** X12: when [process] ends normally over a list of mesh objects, the
    three output lists have one entry for every quad face of every
    object, and the log has the diagnostics of the objects in order,
    each object numbering its faces from 0; nothing runs when no output
    is linked. *)
Theorem process_collects_all_quads polygons_to_edges vertex_normals
    (linked : bool) (inputs : list mesh_input) log out' :
  process polygons_to_edges vertex_normals linked inputs = Some (log, Ok out') ->
  linked = true /\
  log = batch_log inputs /\
  length (surface_out out') = count_quads inputs /\
  length (control_points_out out') = count_quads inputs /\
  length (weights_out out') = count_quads inputs.
Proof.
  unfold process. destruct linked; [|discriminate].
  intros [= H]. apply process_objects_Ok in H as (-> & patches & L & ->).
  destruct (foldl_append_patch_lengths patches no_outputs) as (L1 & L2 & L3).
  rewrite L1, L2, L3, L. simpl. auto.
Qed.

Lemma process_collects_all_quads_witness :
  exists log out',
    process Strip.no_edges Strip.flat_normals true [Strip.mesh; Strip.mesh]
    = Some (log, Ok out') /\
    log = [not_a_quad 1; not_a_quad 1] /\
    length (surface_out out') = 4%nat.
Proof.
  destruct (process Strip.no_edges Strip.flat_normals true
              [Strip.mesh; Strip.mesh]) as [[log [out'|e]]|] eqn:E.
  - destruct (process_collects_all_quads _ _ _ _ _ _ E)
      as (_ & Hlog & H1 & _).
    exists log, out'. repeat split; assumption.
  - exfalso. vm_compute in E. discriminate E.
  - discriminate E.
Defined.

(** X13: an exception in the body of one mesh object ends the whole
    batch with an exception, whatever the objects before it produced
    and whatever comes after it: no output is set. *)
Theorem process_aborts_on_exception polygons_to_edges vertex_normals
    (m : mesh_input) out0 log0 e :
  process_object polygons_to_edges vertex_normals m out0 = (log0, Raise e) ->
  forall before after,
    exists log e',
      process polygons_to_edges vertex_normals true (before ++ m :: after)
      = Some (log, Raise e').
Proof.
  intros Hm before after. unfold process.
  generalize no_outputs.
  induction before as [|m' before IH]; intros out; simpl.
  - rewrite (process_object_raise_any_outputs _ _ _ _ out _ _ Hm). eauto.
  - destruct (process_object _ _ m' out) as [log1 [out1|e1]]; [|eauto].
    destruct (IH out1) as (log & e' & [= H]). rewrite H. eauto.
Qed.

Lemma process_aborts_on_exception_witness :
  exists log e',
    process Strip.no_edges Strip.flat_normals true
      ([Strip.mesh] ++ Broken.mesh :: [Strip.mesh])
    = Some (log, Raise e').
Proof.
  eassert (H : process_object Strip.no_edges Strip.flat_normals Broken.mesh
                 no_outputs = (_, Raise _)) by (vm_compute; reflexivity).
  apply (process_aborts_on_exception _ _ _ _ _ _ H [Strip.mesh] [Strip.mesh]).
Defined.

(** ** When the body of a mesh object ends normally *)









(** * [dependencies.py] *)

Section dependencies_facts.

Local Open Scope string_scope.

Lemma load_of_bits_as_expected
    (b1 b2 b3 b4 b5 b6 b7 b8 b9 b10 : bool) :
  dependencies.as_expected
    (dependencies.of_bits b1 b2 b3 b4 b5 b6 b7 b8 b9 b10)
    (dependencies.load (dependencies.of_bits b1 b2 b3 b4 b5 b6 b7 b8 b9 b10)).
Proof.
  destruct b1, b2, b3;
    try (vm_compute; repeat split; reflexivity);
    destruct b4, b5, b6, b7, b8, b9, b10;
    vm_compute; repeat split; reflexivity.
Qed.

(** Every run of the module body ends in one of the two expected ways. *)
Lemma load_as_expected (importable : string -> bool) :
  dependencies.as_expected importable (dependencies.load importable).
Proof.
  exact (load_of_bits_as_expected
           (importable "sverchok") (importable "sverchok.utils.logging")
           (importable "pip") (importable "ensurepip") (importable "scipy")
           (importable "geomdl") (importable "skimage") (importable "mcubes")
           (importable "pygalmesh") (importable "circlify")).
Qed.

(** X15: the module body runs to its end exactly when both [import
    sverchok] and the import of its logging functions succeed.
    Otherwise it stops with a [NameError] for [debug] right after the
    pip check, whatever else can be imported: only the entries of
    sverchok and pip were made, and the only output is the printed
    message. *)
Theorem load_needs_sverchok (importable : string -> bool) :
  ((exists st, dependencies.load importable = dependencies.Loaded st) <->
   importable "sverchok" = true /\
   importable "sverchok.utils.logging" = true) /\
  (forall name st,
     dependencies.load importable = dependencies.NameError name st ->
     name = "debug" /\
     map fst (dependencies.deps st) = ["sverchok"; "pip"] /\
     dependencies.stdout st
     = ["Sverchok addon is not available. Sverchok-Extra will not work."] /\
     dependencies.logged st = []).
Proof.
  pose proof (load_as_expected importable) as H.
  destruct (dependencies.load importable) as [st|name st]; simpl in H.
  - destruct H as (H1 & H2 & _). split; [|intros ? ? [=]].
    split; [auto|eauto].
  - destruct H as (-> & Hb & Hk & Hout & Hlog).
    split.
    + split; [intros [st' [=]]|]. intros [H1 H2].
      rewrite H1, H2 in Hb. discriminate Hb.
    + intros name' st' [= <- <-]. auto.
Qed.

Lemma load_needs_sverchok_witness :
  exists st,
    dependencies.load dependencies.no_sverchok
    = dependencies.NameError "debug" st /\
    map fst (dependencies.deps st) = ["sverchok"; "pip"].
Proof.
  destruct (dependencies.load dependencies.no_sverchok) as [st|name st] eqn:E.
  - exfalso. vm_compute in E. discriminate E.
  - destruct (proj2 (load_needs_sverchok dependencies.no_sverchok) name st E)
      as (-> & Hk & _).
    exists st. auto.
Defined.

Ltac string_cases H :=
  repeat (apply elem_of_cons in H as [H|H]; [try discriminate H|]);
  try (apply elem_of_nil in H; destruct H).

Lemma entry_facts (importable : string -> bool) (key : string)
    (d : dependencies.Dependency) (b : bool) :
  dependencies.module d = (if importable key then Some key else None) ->
  is_Some (dependencies.message d) ->
  dependencies.pip_installable d = negb (importable key) && b ->
  (b = true <-> key ∈ dependencies.installable_keys) ->
  dependencies.module d = (if importable key then Some key else None) /\
  is_Some (dependencies.message d) /\
  (dependencies.pip_installable d = true <->
   importable key = false /\ key ∈ dependencies.installable_keys).
Proof.
  intros Hm Hmsg Hi Hb. split; [exact Hm|split; [exact Hmsg|]].
  rewrite Hi. destruct (importable key); simpl.
  - split; [discriminate|intros [Hf _]; discriminate Hf].
  - destruct b.
    + split; [intros _; split; [reflexivity|apply Hb; reflexivity]
             |intros _; reflexivity].
    + split; [discriminate|intros [_ Hin]; apply Hb in Hin; discriminate Hin].
Qed.

Ltac installable_iff :=
  unfold dependencies.installable_keys;
  split;
  [ intros Hb; first [discriminate Hb | in_list]
  | intros Hin; first [reflexivity | exfalso; string_cases Hin] ].

(** X16: after a normal end of the body the dict has the eight entries
    in the order of the body; the module of an entry is the imported
    module, or [None] when the import failed; every entry has its
    message; and [pip_installable] is set exactly for scipy, skimage and
    circlify when their import failed. *)
Theorem loaded_entries (importable : string -> bool) st :
  dependencies.load importable = dependencies.Loaded st ->
  map fst (dependencies.deps st)
  = ["sverchok"; "pip"; "scipy"; "geomdl"; "skimage"; "mcubes"; "pygalmesh";
     "circlify"] /\
  forall key d, (key, d) ∈ dependencies.deps st ->
    dependencies.module d = (if importable key then Some key else None) /\
    is_Some (dependencies.message d) /\
    (dependencies.pip_installable d = true <->
     importable key = false /\ key ∈ dependencies.installable_keys).
Proof.
  intros H. pose proof (load_as_expected importable) as E.
  rewrite H in E. simpl in E.
  destruct E as (Hs & _ & Hk & _ & Hm & Hi & Hmsg & _).
  split; [exact Hk|].
  destruct (dependencies.deps st)
    as [|[k1 d1] [|[k2 d2] [|[k3 d3] [|[k4 d4] [|[k5 d5] [|[k6 d6]
        [|[k7 d7] [|[k8 d8] [|? ?]]]]]]]]]; try discriminate Hk.
  injection Hk as -> -> -> -> -> -> -> ->.
  injection Hm as M1 M2 M3 M4 M5 M6 M7 M8.
  injection Hi as I1 I2 I3 I4 I5 I6 I7 I8.
  simpl in Hmsg.
  repeat (apply andb_prop in Hmsg as [?%bool_decide_eq_true_1 Hmsg]).
  unfold dependencies.expected_module in *.
  unfold dependencies.expected_installable in *. simpl in *.
  intros key d Hin.
  apply elem_of_cons in Hin as [[= -> ->]|Hin].
  { apply (entry_facts importable "sverchok" d1 false);
      [rewrite Hs; exact M1|assumption|rewrite Hs; exact I1|installable_iff]. }
  repeat (apply elem_of_cons in Hin as [[= -> ->]|Hin];
    [eapply entry_facts; [eassumption|eassumption|eassumption|installable_iff]
    |]).
  apply elem_of_nil in Hin as [].
Qed.

Lemma loaded_entries_witness :
  exists st,
    dependencies.load dependencies.everything = dependencies.Loaded st /\
    map fst (dependencies.deps st)
    = ["sverchok"; "pip"; "scipy"; "geomdl"; "skimage"; "mcubes"; "pygalmesh";
       "circlify"].
Proof.
  destruct (dependencies.load dependencies.everything) as [st|name st] eqn:E.
  - exists st. split; [reflexivity|].
    apply (proj1 (loaded_entries dependencies.everything st E)).
  - exfalso. vm_compute in E. discriminate E.
Defined.

(** X17: after a normal end of the body [good_names] holds the package
    names of the optional dependencies that were imported, in the order
    of the body, and never sverchok, whose package is [None]; the last
    thing logged is the list of these names, or that there are none. *)
Theorem loaded_good_names (importable : string -> bool) st :
  dependencies.load importable = dependencies.Loaded st ->
  dependencies.good_names st
  = omap (fun '(key, package) => if importable key then Some package else None)
      [ ("pip", "pip"); ("scipy", "scipy"); ("geomdl", "geomdl");
        ("skimage", "scikit-image"); ("mcubes", "mcubes");
        ("pygalmesh", "pygalmesh"); ("circlify", "circlify") ] /\
  last (dependencies.logged st)
  = Some (match dependencies.good_names st with
          | [] => (dependencies.INFO, "No dependencies are available.", [])
          | good => (dependencies.INFO, "Dependencies available: %s.",
                     [String.concat ", " good])
          end).
Proof.
  intros H. pose proof (load_as_expected importable) as E.
  rewrite H in E. simpl in E.
  destruct E as (_ & _ & _ & _ & _ & _ & _ & Hg & Hl & _).
  split; [exact Hg|]. rewrite Hl, Hg. reflexivity.
Qed.

Lemma loaded_good_names_witness :
  exists st,
    dependencies.load dependencies.everything = dependencies.Loaded st /\
    dependencies.good_names st
    = ["pip"; "scipy"; "geomdl"; "scikit-image"; "mcubes"; "pygalmesh";
       "circlify"].
Proof.
  destruct (dependencies.load dependencies.everything) as [st|name st] eqn:E.
  - exists st. split; [reflexivity|].
    apply (proj1 (loaded_good_names dependencies.everything st E)).
  - exfalso. vm_compute in E. discriminate E.
Defined.

(** X18: after a normal end of the body the name [ensurepip] holds the
    module only when pip could not be imported and ensurepip could; it
    is [None] otherwise, also when pip is there. *)
Theorem loaded_ensurepip (importable : string -> bool) st :
  dependencies.load importable = dependencies.Loaded st ->
  dependencies.dict_get "ensurepip" (dependencies.names st)
  = Some (if importable "pip" then None
          else if importable "ensurepip" then Some "ensurepip" else None).
Proof.
  intros H. pose proof (load_as_expected importable) as E.
  rewrite H in E. simpl in E.
  destruct E as (_ & _ & _ & _ & _ & _ & _ & _ & _ & He & _).
  exact He.
Qed.

Lemma loaded_ensurepip_witness :
  exists st,
    dependencies.load dependencies.everything = dependencies.Loaded st /\
    dependencies.dict_get "ensurepip" (dependencies.names st) = Some None.
Proof.
  destruct (dependencies.load dependencies.everything) as [st|name st] eqn:E.
  - exists st. split; [reflexivity|].
    apply (loaded_ensurepip dependencies.everything st E).
  - exfalso. vm_compute in E. discriminate E.
Defined.

End dependencies_facts.
